(** * The [upgrade] command of vcpkg: a shallow embedding and its properties

    Source: [src/vcpkg/commands.upgrade.cpp], namespace
    [vcpkg::Commands::Upgrade].  The command is a straight-line driver that
    classifies the requested package specs (or scans for outdated packages),
    asks the dependency planner for an action plan, presents it, and, behind
    the [--no-dry-run] gate, runs the installer.

    The driver prints, calls collaborators and terminates the process through
    [Checks::exit_*]; it is embedded in a small state-and-exit monad over a
    [World] that holds the status database and the chronological trace of the
    observable events. *)

From Stdlib Require Import ZArith Ascii String.
From Stdlib Require DecimalString DecimalZ DecimalPos.
From stdpp Require Import base decidable countable list sorting gmap strings.

Local Open Scope Z_scope.

(** ** Byte-wise order on [std::string] *)

(** [std::string::operator<] compares the two byte sequences
    lexicographically, bytes taken as unsigned; this is [String.ltb]. *)
Module StdString.

Definition lt (a b : string) : bool := String.ltb a b.

Lemma ascii_compare_refl (c : ascii) : Ascii.compare c c = Eq.
Proof. unfold Ascii.compare. apply N.compare_refl. Qed.

Lemma ascii_compare_lt_trans (a b c : ascii) :
  Ascii.compare a b = Lt -> Ascii.compare b c = Lt -> Ascii.compare a c = Lt.
Proof.
  unfold Ascii.compare. rewrite !N.compare_lt_iff. apply N.lt_trans.
Qed.

Lemma compare_refl (s : string) : String.compare s s = Eq.
Proof.
  induction s as [|c s IH]; simpl; [reflexivity|].
  rewrite ascii_compare_refl. exact IH.
Qed.

Lemma compare_lt_trans (a : string) :
  forall b c, String.compare a b = Lt -> String.compare b c = Lt ->
              String.compare a c = Lt.
Proof.
  induction a as [|x a IH]; intros [|y b] [|z c]; simpl; try congruence.
  destruct (Ascii.compare x y) eqn:Hxy; try discriminate.
  - apply Ascii.compare_eq_iff in Hxy. subst y.
    destruct (Ascii.compare x z); try congruence. apply IH.
  - intros _.
    destruct (Ascii.compare y z) eqn:Hyz; try discriminate.
    + apply Ascii.compare_eq_iff in Hyz. subst z. now rewrite Hxy.
    + intros _. now rewrite (ascii_compare_lt_trans x y z).
Qed.

Lemma lt_irrefl (s : string) : lt s s = false.
Proof. unfold lt, String.ltb. now rewrite compare_refl. Qed.

Lemma lt_trans (a b c : string) : lt a b = true -> lt b c = true -> lt a c = true.
Proof.
  unfold lt, String.ltb.
  destruct (String.compare a b) eqn:Hab; try discriminate.
  destruct (String.compare b c) eqn:Hbc; try discriminate.
  now rewrite (compare_lt_trans a b c).
Qed.

Lemma lt_asym (a b : string) : lt a b = true -> lt b a = false.
Proof.
  unfold lt, String.ltb. rewrite (String.compare_antisym b a).
  now destruct (String.compare a b).
Qed.

Lemma lt_trichotomy (a b : string) : lt a b = false -> lt b a = false -> a = b.
Proof.
  unfold lt, String.ltb. rewrite (String.compare_antisym b a).
  destruct (String.compare a b) eqn:Hab; simpl; try discriminate.
  intros _ _. now apply String.compare_eq_iff.
Qed.

End StdString.

(** ** Data model *)

(** A triplet is identified by its canonical name. *)
Definition Triplet : Type := string.

(** [PackageSpec]: the pair (port name, triplet). *)
Record PackageSpec : Type := mkPackageSpec {
  name : string;
  triplet : Triplet
}.

Global Instance PackageSpec_eq_dec : EqDecision PackageSpec.
Proof. solve_decision. Defined.

Global Instance PackageSpec_countable : Countable PackageSpec.
Proof.
  apply (inj_countable' (fun s => (name s, triplet s))
                        (fun p => mkPackageSpec (fst p) (snd p))).
  now intros [].
Defined.

Module PackageSpecOps.

(** Modelled from the spec: [PackageSpec::to_string] is declared outside
    this file; the end-to-end scenarios print a spec as [name:triplet]
    (e.g. [zlib:x64-linux]). *)
Definition to_string (s : PackageSpec) : string :=
  name s +:+ ":" +:+ triplet s.

(** Modelled from the spec: [operator<] on [PackageSpec] is declared
    outside this file; the spec orders the pair (port name, triplet)
    lexicographically. *)
Definition lt (a b : PackageSpec) : bool :=
  if StdString.lt (name a) (name b) then true
  else if StdString.lt (name b) (name a) then false
  else StdString.lt (triplet a) (triplet b).

(** [le a b] is [!(b < a)], the relation a sort by [operator<]
    establishes between neighbours. *)
Definition le (a b : PackageSpec) : Prop := lt b a = false.

Global Instance le_dec : RelDecision le.
Proof. intros a b. unfold le. apply _. Defined.

(** The order is a strict total order, so [le] is a total order. *)

Ltac order_facts :=
  repeat match goal with
    | H : StdString.lt ?x ?x = true |- _ =>
        rewrite StdString.lt_irrefl in H; discriminate H
    | H1 : StdString.lt ?x ?y = true, H2 : StdString.lt ?y ?x = true |- _ =>
        rewrite (StdString.lt_asym x y H1) in H2; discriminate H2
    | H1 : StdString.lt ?x ?y = false, H2 : StdString.lt ?y ?x = false |- _ =>
        pose proof (StdString.lt_trichotomy x y H1 H2); subst; clear H1
    | H1 : StdString.lt ?x ?y = true, H2 : StdString.lt ?y ?z = true,
      H3 : StdString.lt ?x ?z = false |- _ =>
        rewrite (StdString.lt_trans x y z H1 H2) in H3; discriminate H3
    end.

Lemma spec_lt_irrefl (a : PackageSpec) : lt a a = false.
Proof. unfold lt. now rewrite !StdString.lt_irrefl. Qed.

Lemma spec_lt_asym (a b : PackageSpec) : lt a b = true -> lt b a = false.
Proof.
  destruct a as [na ta], b as [nb tb]. unfold lt. simpl.
  destruct (StdString.lt na nb) eqn:Hab, (StdString.lt nb na) eqn:Hba;
    try discriminate; try reflexivity; order_facts.
  apply StdString.lt_asym.
Qed.

Lemma spec_lt_trichotomy (a b : PackageSpec) : lt a b = false -> lt b a = false -> a = b.
Proof.
  destruct a as [na ta], b as [nb tb]. unfold lt. simpl.
  destruct (StdString.lt na nb) eqn:Hab, (StdString.lt nb na) eqn:Hba;
    try discriminate.
  intros H1 H2. order_facts. reflexivity.
Qed.

Lemma spec_lt_trans (a b c : PackageSpec) :
  lt a b = true -> lt b c = true -> lt a c = true.
Proof.
  destruct a as [na ta], b as [nb tb], c as [nc tc]. unfold lt. simpl.
  destruct (StdString.lt na nb) eqn:Hab, (StdString.lt nb na) eqn:Hba,
           (StdString.lt nb nc) eqn:Hbc, (StdString.lt nc nb) eqn:Hcb,
           (StdString.lt na nc) eqn:Hac, (StdString.lt nc na) eqn:Hca;
    try discriminate; try reflexivity; intros H1 H2; order_facts;
    try congruence.
  eapply StdString.lt_trans; eassumption.
Qed.

Global Instance le_total : Total le.
Proof.
  intros a b. unfold le.
  destruct (lt b a) eqn:Hba; [right; now apply spec_lt_asym | now left].
Qed.

Global Instance le_trans : Transitive le.
Proof.
  intros a b c. unfold le. intros Hba Hcb.
  destruct (lt c a) eqn:Hca; [|reflexivity].
  destruct (lt a b) eqn:Hab.
  - now rewrite (spec_lt_trans c a b Hca Hab) in Hcb.
  - pose proof (spec_lt_trichotomy a b Hab Hba). subst b. congruence.
Qed.

Global Instance le_antisym : AntiSymm (=) le.
Proof. intros a b Hab Hba. unfold le in *. now apply spec_lt_trichotomy. Qed.

End PackageSpecOps.

(** [Version]: the pair (upstream version string, port revision). *)
Record Version : Type := mkVersion {
  text : string;
  port_version : Z
}.

Global Instance Version_eq_dec : EqDecision Version.
Proof. solve_decision. Defined.

Module VersionOps.

(** Modelled from the spec: [operator==] on [Version] is declared outside
    this file; equality is structural on both fields. *)
Definition eqb (a b : Version) : bool :=
  String.eqb (text a) (text b) && Z.eqb (port_version a) (port_version b).

Lemma eqb_eq (a b : Version) : eqb a b = true <-> a = b.
Proof.
  destruct a as [ta pa], b as [tb pb]. unfold eqb. simpl.
  rewrite andb_true_iff, String.eqb_eq, Z.eqb_eq.
  split; [intros [-> ->]; reflexivity | intros [= -> ->]; auto].
Qed.

Lemma eqb_neq (a b : Version) : eqb a b = false <-> a <> b.
Proof.
  rewrite <- eqb_eq. destruct (eqb a b); split; congruence.
Qed.

End VersionOps.

(** The installed package paragraph of a status record: the fields the
    command reads. *)
Record BinaryParagraph : Type := mkBinaryParagraph {
  bp_spec : PackageSpec;
  bp_version : string;
  bp_port_version : Z
}.

Record StatusParagraph : Type := mkStatusParagraph {
  package : BinaryParagraph
}.

(** The core paragraph of a port's control file: the fields the command
    reads. *)
Record SourceParagraph : Type := mkSourceParagraph {
  sp_name : string;
  raw_version : string;
  sp_port_version : Z
}.

Record SourceControlFile : Type := mkSourceControlFile {
  core_paragraph : SourceParagraph
}.

Record SourceControlFileLocation : Type := mkSourceControlFileLocation {
  source_control_file : SourceControlFile
}.

(** Modelled from the spec: the status database answers
    [find_installed(spec)] with an optional installed record; it is kept as
    a finite map from specs to their installed status paragraph. *)
Abbreviation StatusParagraphs := (gmap PackageSpec StatusParagraph).

Definition find_installed (status_db : StatusParagraphs) (spec : PackageSpec)
  : option StatusParagraph := status_db !! spec.

(** Modelled from the spec: the port provider answers
    [get_control_file(name)] with an optional recipe; it is kept as a finite
    map from port names to control files. *)
Abbreviation PortFileProvider := (gmap string SourceControlFileLocation).

Definition get_control_file (provider : PortFileProvider) (port : string)
  : option SourceControlFileLocation := provider !! port.

Module Util.

(** Modelled from the spec: [Util::sort] is declared outside this file
    (it sorts a vector by [operator<]); each bucket ends up sorted by the
    [PackageSpec] order.  The order is total, so the sorted arrangement of
    a given multiset is unique and the algorithm does not matter. *)
Definition sort (l : list PackageSpec) : list PackageSpec :=
  merge_sort PackageSpecOps.le l.

Lemma sort_Permutation (l : list PackageSpec) : sort l ≡ₚ l.
Proof. apply merge_sort_Permutation. Qed.

Lemma sort_Sorted (l : list PackageSpec) : Sorted PackageSpecOps.le (sort l).
Proof. apply (Sorted_merge_sort PackageSpecOps.le). Qed.

(** Two arrangements of the same multiset sort to the same vector. *)
Lemma sort_unique (l1 l2 : list PackageSpec) : l1 ≡ₚ l2 -> sort l1 = sort l2.
Proof.
  intros H. apply (Sorted_unique PackageSpecOps.le); try apply sort_Sorted.
  now rewrite !sort_Permutation.
Qed.

Lemma elem_of_sort (x : PackageSpec) (l : list PackageSpec) : x ∈ sort l <-> x ∈ l.
Proof. now rewrite sort_Permutation. Qed.

Lemma sort_nil_iff (l : list PackageSpec) : sort l = [] <-> l = [].
Proof.
  split; intros H.
  - apply Permutation_nil_r. rewrite <- H. symmetry. apply sort_Permutation.
  - subst l. reflexivity.
Qed.

End Util.

Module Strings.

(** Modelled from the spec: [Strings::join] is declared outside this
    file; it concatenates the images of the elements, with the delimiter
    between consecutive ones. *)
Fixpoint join {A : Type} (delimiter : string) (v : list A) (f : A -> string)
  : string :=
  match v with
  | [] => ""
  | [x] => f x
  | x :: rest => f x +:+ delimiter +:+ join delimiter rest f
  end.

Lemma app_nil_r (s : string) : s +:+ "" = s.
Proof.
  induction s as [|c s IH]; [reflexivity|].
  change (String c (s +:+ "") = String c s). now rewrite IH.
Qed.

Lemma app_assoc (a b c : string) : (a +:+ b) +:+ c = a +:+ (b +:+ c).
Proof.
  induction a as [|x a IH]; [reflexivity|].
  change (String x ((a +:+ b) +:+ c) = String x (a +:+ (b +:+ c))).
  now rewrite IH.
Qed.

(** With the empty delimiter the result is the plain concatenation of
    the images, one per element. *)
Lemma join_empty_delimiter {A : Type} (v : list A) (f : A -> string) :
  join "" v f = foldr (fun x rest => f x +:+ rest) "" v.
Proof.
  induction v as [|x [|y v] IH]; [reflexivity| |].
  - simpl. now rewrite app_nil_r.
  - change (join "" (x :: y :: v) f) with (f x +:+ join "" (y :: v) f).
    now rewrite IH.
Qed.

Lemma join_mentions {A : Type} (v : list A) (f : A -> string) (x : A) (tail : string) :
  x ∈ v ->
  exists before after, join "" v f +:+ tail = before +:+ f x +:+ after.
Proof.
  rewrite join_empty_delimiter.
  induction 1 as [x v|x y v Hin IH]; simpl.
  - exists "", (foldr (fun x rest => f x +:+ rest) "" v +:+ tail).
    now rewrite app_assoc.
  - destruct IH as (before & after & IH).
    exists (f y +:+ before), after.
    now rewrite !app_assoc, IH.
Qed.

End Strings.

(** ** Plans, summaries and the command's environment *)

Inductive KeepGoing : Type := NO | YES.

Global Instance KeepGoing_eq_dec : EqDecision KeepGoing.
Proof. solve_decision. Defined.

Inductive UnsupportedPortAction : Type := Warn | Error.

Inductive Color : Type := Color_success | Color_error | Color_warning.

(** Modelled from the spec: the per-action outcomes of an install sweep are
    success, fail and cascaded-skip. *)
Inductive BuildResult : Type :=
| SUCCEEDED
| BUILD_FAILED
| CASCADED_DUE_TO_MISSING_DEPENDENCIES.

Record SpecSummary : Type := mkSpecSummary {
  ss_spec : PackageSpec;
  build_result : BuildResult
}.

Record InstallSummary : Type := mkInstallSummary {
  results : list SpecSummary
}.

Record OutdatedPackage : Type := mkOutdatedPackage {
  op_spec : PackageSpec;
  version_diff : Version * Version
}.

Record CreateInstallPlanOptions : Type := mkCreateInstallPlanOptions {
  opt_host_triplet : Triplet;
  opt_unsupported_port_action : UnsupportedPortAction
}.

Record RemovePlanAction : Type := mkRemovePlanAction {
  rpa_spec : PackageSpec
}.

Record VcpkgPaths : Type := mkVcpkgPaths {
  manifest_mode_enabled : bool;
  installed : string;
  builtin_ports_directory : string
}.

Record VcpkgCmdArguments : Type := mkVcpkgCmdArguments {
  command_arguments : list string;
  overlay_ports : list string;
  command_line_switches : list string
}.

Record ParsedArguments : Type := mkParsedArguments {
  switches : gset string
}.

Record CommandSwitch : Type := mkCommandSwitch {
  switch_name : string;
  short_help_text : string
}.

Record CommandStructure : Type := mkCommandStructure {
  example_text : string;
  minimum_arity : Z;
  maximum_arity : Z;
  options_switches : list CommandSwitch
}.

(** The messages of the localization table the command formats. *)
Inductive LocalizedMessage : Type :=
| msgBothYesAndNoOptionSpecifiedError (option : string).

Definition EXIT_SUCCESS : Z := 0.
Definition EXIT_FAILURE : Z := 1.
Definition SIZE_MAX : Z := 18446744073709551615.

Definition newline : string := String "010"%char "".

Section Upgrade.

(** The build-options record and its system default
    ([vcpkg::Build::default_build_package_options]) are declared outside
    this file; the command only copies the default around. *)
Context {BuildPackageOptions : Type}.
Variable default_build_package_options : BuildPackageOptions.

Record InstallPlanAction : Type := mkInstallPlanAction {
  ipa_spec : PackageSpec;
  build_options : BuildPackageOptions
}.

Record ActionPlan : Type := mkActionPlan {
  remove_actions : list RemovePlanAction;
  install_actions : list InstallPlanAction;
  warnings : list string
}.

(** Modelled from the spec: [ActionPlan::empty] is declared outside this
    file; a plan is the sequence of install actions, the sequence of remove
    actions and the warnings, and it is empty when it holds no action. *)
Definition ActionPlan_empty (plan : ActionPlan) : bool :=
  match remove_actions plan, install_actions plan with
  | [], [] => true
  | _, _ => false
  end.

(** What the outside world can observe of a run, in order. *)
Inductive Event : Type :=
| EvPrint (color : option Color) (message : string)
| EvPrintMessage (color : option Color) (message : LocalizedMessage)
| EvUpgradeMessage
| EvFindOutdatedPackages
| EvCreateUpgradePlan (specs : list PackageSpec) (options : CreateInstallPlanOptions)
| EvPrintPlan (plan : ActionPlan) (is_recursive : bool) (builtin_ports_dir : string)
| EvLoadTagVars (plan : ActionPlan) (host_triplet : Triplet)
| EvInstallPerform (plan : ActionPlan) (keep_going : KeepGoing)
| EvSummaryPrint (summary : InstallSummary).

(** The status database is owned by the command for the whole run: it is
    what [database_load_check] yields at the start and what the installer
    works on.  The trace is chronological. *)
Record World : Type := mkWorld {
  status_db : StatusParagraphs;
  trace : list Event
}.

(** The installer either returns a summary or terminates the process on
    the first failure; either way it may have changed the status
    database. *)
Inductive PerformResult : Type :=
| Returned (summary : InstallSummary) (db : StatusParagraphs)
| Aborted (db : StatusParagraphs).

(** The collaborators defined in other files, by their interfaces.  A
    collaborator that can end the process itself (argument parsing, spec
    validation, the planner) answers [None] when it does. *)
Record Collaborators : Type := mkCollaborators {
  create_example_string : string -> string;
  parse_arguments : VcpkgCmdArguments -> CommandStructure -> option ParsedArguments;
  check_and_get_package_spec :
    string -> Triplet -> string -> VcpkgPaths -> option PackageSpec;
  PathsPortFileProvider : VcpkgPaths -> list string -> PortFileProvider;
  find_outdated_packages :
    PortFileProvider -> StatusParagraphs -> list OutdatedPackage;
  create_upgrade_plan :
    PortFileProvider -> list PackageSpec -> StatusParagraphs ->
    CreateInstallPlanOptions -> option ActionPlan;
  install_perform :
    VcpkgCmdArguments -> ActionPlan -> KeepGoing -> VcpkgPaths ->
    StatusParagraphs -> PerformResult;
  timer_to_string : string
}.

(** ** The command monad: state, trace and process exit *)

Inductive Result (A : Type) : Type :=
| Continue (a : A) (w : World)
| Exited (code : Z) (w : World).
Global Arguments Continue {A} a w.
Global Arguments Exited {A} code w.

Definition Cmd (A : Type) : Type := World -> Result A.

Definition cmd_ret {A : Type} (a : A) : Cmd A := fun w => Continue a w.

Definition cmd_bind {A B : Type} (f : A -> Cmd B) (m : Cmd A) : Cmd B :=
  fun w =>
    match m w with
    | Continue a w' => f a w'
    | Exited code w' => Exited code w'
    end.

Global Instance Cmd_ret : MRet Cmd := @cmd_ret.
Global Instance Cmd_bind : MBind Cmd := @cmd_bind.

Definition emit (e : Event) : Cmd unit :=
  fun w => Continue tt (mkWorld (status_db w) (trace w ++ [e])).

Definition exit_process {A : Type} (code : Z) : Cmd A :=
  fun w => Exited code w.

Definition get_status_db : Cmd StatusParagraphs :=
  fun w => Continue (status_db w) w.

Definition put_status_db (db : StatusParagraphs) : Cmd unit :=
  fun w => Continue tt (mkWorld db (trace w)).

Definition when (b : bool) (c : Cmd unit) : Cmd unit :=
  if b then c else mret tt.

Fixpoint for_each {A : Type} (l : list A) (body : A -> Cmd unit) : Cmd unit :=
  match l with
  | [] => mret tt
  | x :: rest => body x ;; for_each rest body
  end.

Fixpoint fmap_cmd {A B : Type} (l : list A) (f : A -> Cmd B) : Cmd (list B) :=
  match l with
  | [] => mret []
  | x :: rest => y ← f x; ys ← fmap_cmd rest f; mret (y :: ys)
  end.

Definition print2 (color : option Color) (message : string) : Cmd unit :=
  emit (EvPrint color message).

(** Modelled from the spec: the [Checks] helpers are declared outside this
    file.  [Checks::exit_success] ends the process with code 0,
    [Checks::exit_fail] with a nonzero code; [Checks::check_exit] is fatal
    when its condition is false, reporting the formatted message when it
    has one; [Checks::exit_maybe_upgrade] reports its text as an advisory
    and is fatal. *)
Definition Checks_exit_success {A : Type} : Cmd A := exit_process EXIT_SUCCESS.

Definition Checks_exit_fail {A : Type} : Cmd A := exit_process EXIT_FAILURE.

Definition Checks_check_exit (expression : bool) : Cmd unit :=
  if expression then mret tt else Checks_exit_fail.

Definition Checks_check_exit_msg (expression : bool) (m : LocalizedMessage)
  : Cmd unit :=
  if expression then mret tt
  else emit (EvPrintMessage (Some Color_error) m) ;; Checks_exit_fail.

Definition Checks_exit_maybe_upgrade {A : Type} (error_message : string) : Cmd A :=
  print2 (Some Color_error) (error_message +:+ newline) ;;
  emit EvUpgradeMessage ;;
  Checks_exit_fail.

(** Modelled from the spec: [ExpectedS::value_or_exit] and the
    dereference of a status iterator are declared outside this file;
    taking the value of an absent result is fatal. *)
Definition value_or_exit {A : Type} (maybe : option A) : Cmd A :=
  match maybe with
  | Some a => mret a
  | None => Checks_exit_fail
  end.

(** ** Calls into the collaborators *)

Variable env : Collaborators.

Definition Update_find_outdated_packages
           (provider : PortFileProvider) (db : StatusParagraphs)
  : Cmd (list OutdatedPackage) :=
  emit EvFindOutdatedPackages ;;
  mret (find_outdated_packages env provider db).

(** The planner aborts the process itself when it cannot plan (an
    unsupported port under [Error]). *)
Definition Dependencies_create_upgrade_plan
           (provider : PortFileProvider) (specs : list PackageSpec)
           (db : StatusParagraphs) (options : CreateInstallPlanOptions)
  : Cmd ActionPlan :=
  emit (EvCreateUpgradePlan specs options) ;;
  value_or_exit (create_upgrade_plan env provider specs db options).

Definition Dependencies_print_plan
           (plan : ActionPlan) (is_recursive : bool) (builtin_ports_dir : string)
  : Cmd unit :=
  emit (EvPrintPlan plan is_recursive builtin_ports_dir).

Definition load_tag_vars (plan : ActionPlan) (host_triplet : Triplet) : Cmd unit :=
  emit (EvLoadTagVars plan host_triplet).

(** The installer works on the status database in place. *)
Definition Install_perform
           (args : VcpkgCmdArguments) (plan : ActionPlan)
           (keep_going : KeepGoing) (paths : VcpkgPaths)
  : Cmd InstallSummary :=
  emit (EvInstallPerform plan keep_going) ;;
  db ← get_status_db;
  match install_perform env args plan keep_going paths db with
  | Returned summary db' => put_status_db db' ;; mret summary
  | Aborted db' => put_status_db db' ;; Checks_exit_fail
  end.

Definition InstallSummary_print (summary : InstallSummary) : Cmd unit :=
  emit (EvSummaryPrint summary).

(** Loading the status database of the installed tree. *)
Definition database_load_check (installed_dir : string) : Cmd StatusParagraphs :=
  get_status_db.

Definition Input_check_and_get_package_spec
           (arg : string) (default_triplet : Triplet) (example : string)
           (paths : VcpkgPaths) : Cmd PackageSpec :=
  value_or_exit (check_and_get_package_spec env arg default_triplet example paths).

(** ** [vcpkg::Commands::Upgrade] *)

Definition OPTION_NO_DRY_RUN : string := "no-dry-run".
Definition OPTION_KEEP_GOING : string := "keep-going".
Definition OPTION_NO_KEEP_GOING : string := "no-keep-going".
Definition OPTION_ALLOW_UNSUPPORTED_PORT : string := "allow-unsupported".

Definition INSTALL_SWITCHES : list CommandSwitch :=
  [ mkCommandSwitch OPTION_NO_DRY_RUN "Actually upgrade";
    mkCommandSwitch OPTION_KEEP_GOING "";
    mkCommandSwitch OPTION_NO_KEEP_GOING "Stop installing packages on failure";
    mkCommandSwitch OPTION_ALLOW_UNSUPPORTED_PORT
      "Instead of erroring on an unsupported port, continue with a warning." ].

Definition COMMAND_STRUCTURE : CommandStructure :=
  mkCommandStructure
    (create_example_string env "upgrade --no-dry-run")
    0
    SIZE_MAX
    INSTALL_SWITCHES.

Definition determine_keep_going (keep_going_set no_keep_going_set : bool)
  : Cmd KeepGoing :=
  Checks_check_exit_msg
    (negb (keep_going_set && no_keep_going_set))
    (msgBothYesAndNoOptionSpecifiedError OPTION_KEEP_GOING) ;;
  if keep_going_set then mret YES
  else if no_keep_going_set then mret NO
  else mret YES.

(** The four vectors the classification loop fills. *)
Record Buckets : Type := mkBuckets {
  not_installed : list PackageSpec;
  no_control_file : list PackageSpec;
  to_upgrade : list PackageSpec;
  up_to_date : list PackageSpec
}.

Definition empty_buckets : Buckets := mkBuckets [] [] [] [].

Definition push_not_installed (spec : PackageSpec) (b : Buckets) : Buckets :=
  mkBuckets (not_installed b ++ [spec]) (no_control_file b)
            (to_upgrade b) (up_to_date b).

Definition push_no_control_file (spec : PackageSpec) (b : Buckets) : Buckets :=
  mkBuckets (not_installed b) (no_control_file b ++ [spec])
            (to_upgrade b) (up_to_date b).

Definition push_to_upgrade (spec : PackageSpec) (b : Buckets) : Buckets :=
  mkBuckets (not_installed b) (no_control_file b)
            (to_upgrade b ++ [spec]) (up_to_date b).

Definition push_up_to_date (spec : PackageSpec) (b : Buckets) : Buckets :=
  mkBuckets (not_installed b) (no_control_file b)
            (to_upgrade b) (up_to_date b ++ [spec]).

(** One iteration of the loop over [specs] (source lines 127 to 159). *)
Definition classify_spec
           (db : StatusParagraphs) (provider : PortFileProvider)
           (b : Buckets) (spec : PackageSpec) : Cmd Buckets :=
  let skip_version_check := false in
  let installed_status := find_installed db spec in
  let '(b, skip_version_check) :=
    if installed_status is None
    then (push_not_installed spec b, true)
    else (b, skip_version_check) in
  let maybe_control_file := get_control_file provider (name spec) in
  let '(b, skip_version_check) :=
    if maybe_control_file is None
    then (push_no_control_file spec b, true)
    else (b, skip_version_check) in
  if skip_version_check then mret b
  else
    control_file ← value_or_exit maybe_control_file;
    let control_paragraph := core_paragraph (source_control_file control_file) in
    let control_version :=
      mkVersion (raw_version control_paragraph) (sp_port_version control_paragraph) in
    installed ← value_or_exit installed_status;
    let installed_paragraph := package installed in
    let installed_version :=
      mkVersion (bp_version installed_paragraph) (bp_port_version installed_paragraph) in
    if VersionOps.eqb control_version installed_version
    then mret (push_up_to_date spec b)
    else mret (push_to_upgrade spec b).

Fixpoint classify_loop
         (db : StatusParagraphs) (provider : PortFileProvider)
         (specs : list PackageSpec) (b : Buckets) : Cmd Buckets :=
  match specs with
  | [] => mret b
  | spec :: rest =>
      b' ← classify_spec db provider b spec;
      classify_loop db provider rest b'
  end.

Definition spec_line (spec : PackageSpec) : string :=
  "    " +:+ PackageSpecOps.to_string spec +:+ newline.

(** The text of one bucket summary: one line per entry, then a newline. *)
Definition bucket_listing (bucket : list PackageSpec) : string :=
  Strings.join "" bucket spec_line +:+ newline.

Definition is_empty {A : Type} (l : list A) : bool :=
  match l with [] => true | _ => false end.

Definition up_to_date_header : string :=
  "The following packages are up-to-date:" +:+ newline.
Definition not_installed_header : string :=
  "The following packages are not installed:" +:+ newline.
Definition no_control_file_header : string :=
  "The following packages do not have a valid CONTROL or vcpkg.json:" +:+ newline.
Definition all_up_to_date_message : string :=
  "All installed packages are up-to-date with the local portfiles." +:+ newline.
Definition dry_run_advisory : string :=
  "If you are sure you want to rebuild the above packages, run this command with the "
  +:+ "--no-dry-run option." +:+ newline.
Definition manifest_mode_message : string :=
  "Error: the upgrade command does not currently support manifest mode. Instead, "
  +:+ "modify your vcpkg.json and run install.".

(** What the first part of [perform_and_exit] leaves in its local
    variables. *)
Record Session : Type := mkSession {
  no_dry_run : bool;
  keep_going : KeepGoing;
  unsupported_port_action : UnsupportedPortAction;
  local_status_db : StatusParagraphs;
  provider : PortFileProvider;
  specs : list PackageSpec
}.

(** Source lines 71 to 99: mode check, switches, status database, port
    provider, input sanitization.  (The binary cache and the CMake
    variable provider are constructed here too; they are opaque to the
    command and only handed on to the installer.) *)
Definition startup
           (args : VcpkgCmdArguments) (paths : VcpkgPaths)
           (default_triplet : Triplet) : Cmd Session :=
  when (manifest_mode_enabled paths)
       (Checks_exit_maybe_upgrade manifest_mode_message) ;;
  options ← value_or_exit (parse_arguments env args COMMAND_STRUCTURE);
  let no_dry_run := bool_decide (OPTION_NO_DRY_RUN ∈ switches options) in
  keep_going ← determine_keep_going
                 (bool_decide (OPTION_KEEP_GOING ∈ switches options))
                 (bool_decide (OPTION_NO_KEEP_GOING ∈ switches options));
  let unsupported_port_action :=
    if bool_decide (OPTION_ALLOW_UNSUPPORTED_PORT ∈ switches options)
    then Warn else Error in
  status_db ← database_load_check (installed paths);
  let provider := PathsPortFileProvider env paths (overlay_ports args) in
  specs ← fmap_cmd (command_arguments args)
                   (fun arg => Input_check_and_get_package_spec
                                 arg default_triplet (example_text COMMAND_STRUCTURE) paths);
  mret (mkSession no_dry_run keep_going unsupported_port_action status_db provider specs).

(** Source lines 104 to 118: no spec given, every outdated package is
    upgraded. *)
Definition plan_for_outdated (s : Session) (host_triplet : Triplet) : Cmd ActionPlan :=
  outdated_packages ← Update_find_outdated_packages (provider s) (local_status_db s);
  when (is_empty outdated_packages)
       (print2 None all_up_to_date_message ;; Checks_exit_success) ;;
  Dependencies_create_upgrade_plan
    (provider s) (map op_spec outdated_packages) (local_status_db s)
    (mkCreateInstallPlanOptions host_triplet (unsupported_port_action s)).

(** Source lines 122 to 164: the classification loop and the four
    sorts. *)
Definition classifier
           (db : StatusParagraphs) (provider : PortFileProvider)
           (specs : list PackageSpec) : Cmd Buckets :=
  b ← classify_loop db provider specs empty_buckets;
  mret (mkBuckets (Util.sort (not_installed b)) (Util.sort (no_control_file b))
                  (Util.sort (to_upgrade b)) (Util.sort (up_to_date b))).

(** Source lines 166 to 189. *)
Definition print_buckets (b : Buckets) : Cmd unit :=
  when (negb (is_empty (up_to_date b)))
       (print2 (Some Color_success) up_to_date_header ;;
        print2 None (bucket_listing (up_to_date b))) ;;
  when (negb (is_empty (not_installed b)))
       (print2 (Some Color_error) not_installed_header ;;
        print2 None (bucket_listing (not_installed b))) ;;
  when (negb (is_empty (no_control_file b)))
       (print2 (Some Color_error) no_control_file_header ;;
        print2 None (bucket_listing (no_control_file b))).

(** Source lines 122 to 196. *)
Definition plan_for_specs (s : Session) (host_triplet : Triplet) : Cmd ActionPlan :=
  b ← classifier (local_status_db s) (provider s) (specs s);
  print_buckets b ;;
  Checks_check_exit (is_empty (not_installed b) && is_empty (no_control_file b)) ;;
  when (is_empty (to_upgrade b)) Checks_exit_success ;;
  Dependencies_create_upgrade_plan
    (provider s) (to_upgrade b) (local_status_db s)
    (mkCreateInstallPlanOptions host_triplet (unsupported_port_action s)).

(** Source lines 101 to 197. *)
Definition choose_plan (s : Session) (host_triplet : Triplet) : Cmd ActionPlan :=
  if is_empty (specs s) then plan_for_outdated s host_triplet
  else plan_for_specs s host_triplet.

(** Source lines 204 to 208. *)
Definition set_build_options (plan : ActionPlan) : ActionPlan :=
  mkActionPlan
    (remove_actions plan)
    (map (fun action => mkInstallPlanAction (ipa_spec action) default_build_package_options)
         (install_actions plan))
    (warnings plan).

Definition elapsed_time_message : string :=
  newline +:+ "Total elapsed time: " +:+ timer_to_string env +:+ newline +:+ newline.

(** Source lines 199 to 238: plan check, warnings, build options,
    presentation, dry-run gate, execution, summary. *)
Definition present_and_execute
           (args : VcpkgCmdArguments) (paths : VcpkgPaths) (host_triplet : Triplet)
           (s : Session) (action_plan : ActionPlan) : Cmd Empty_set :=
  Checks_check_exit (negb (ActionPlan_empty action_plan)) ;;
  for_each (warnings action_plan)
           (fun warning => print2 (Some Color_warning) (warning +:+ newline)) ;;
  let action_plan := set_build_options action_plan in
  Dependencies_print_plan action_plan true (builtin_ports_directory paths) ;;
  when (negb (no_dry_run s))
       (print2 (Some Color_warning) dry_run_advisory ;; Checks_exit_fail) ;;
  load_tag_vars action_plan host_triplet ;;
  summary ← Install_perform args action_plan (keep_going s) paths;
  print2 None elapsed_time_message ;;
  when (bool_decide (keep_going s = YES)) (InstallSummary_print summary) ;;
  Checks_exit_success.

(** [perform_and_exit], source lines 66 to 239. *)
Definition perform_and_exit
           (args : VcpkgCmdArguments) (paths : VcpkgPaths)
           (default_triplet host_triplet : Triplet) : Cmd Empty_set :=
  s ← startup args paths default_triplet;
  action_plan ← choose_plan s host_triplet;
  present_and_execute args paths host_triplet s action_plan.

(** ** Reasoning about runs *)

Definition world_of {A : Type} (r : Result A) : World :=
  match r with
  | Continue _ w => w
  | Exited _ w => w
  end.

Lemma bind_continue {A B : Type} (m : Cmd A) (f : A -> Cmd B) w a w' :
  m w = Continue a w' -> (m ≫= f) w = f a w'.
Proof. intros H. unfold mbind, Cmd_bind, cmd_bind. now rewrite H. Qed.

Lemma bind_exited {A B : Type} (m : Cmd A) (f : A -> Cmd B) w code w' :
  m w = Exited code w' -> (m ≫= f) w = Exited code w'.
Proof. intros H. unfold mbind, Cmd_bind, cmd_bind. now rewrite H. Qed.

Lemma bind_ret {A B : Type} (a : A) (f : A -> Cmd B) w :
  (mret a ≫= f) w = f a w.
Proof. reflexivity. Qed.

(** A command moves every world along a relation [R]; with a preorder
    [R] the property goes through sequencing, branching and loops. *)
Definition steps (R : relation World) {A : Type} (m : Cmd A) : Prop :=
  forall w, R w (world_of (m w)).

Section Steps.

Context (R : relation World) `{!PreOrder R}.

Lemma steps_ret {A : Type} (a : A) : steps R (mret a).
Proof. intros w. simpl. reflexivity. Qed.

Lemma steps_exit {A : Type} (code : Z) : steps R (@exit_process A code).
Proof. intros w. simpl. reflexivity. Qed.

Lemma steps_get : steps R get_status_db.
Proof. intros w. simpl. reflexivity. Qed.

Lemma steps_bind {A B : Type} (m : Cmd A) (f : A -> Cmd B) :
  steps R m -> (forall a, steps R (f a)) -> steps R (m ≫= f).
Proof.
  intros Hm Hf w. specialize (Hm w).
  unfold mbind, Cmd_bind, cmd_bind.
  destruct (m w) as [a w'|code w']; simpl in *; [|exact Hm].
  etrans; [exact Hm | apply Hf].
Qed.

Lemma steps_when (b : bool) (c : Cmd unit) : steps R c -> steps R (when b c).
Proof. intros Hc. destruct b; simpl; [exact Hc | apply steps_ret]. Qed.

Lemma steps_value_or_exit {A : Type} (maybe : option A) :
  steps R (value_or_exit maybe).
Proof. destruct maybe; [apply steps_ret | apply steps_exit]. Qed.

Lemma steps_check_exit (expression : bool) : steps R (Checks_check_exit expression).
Proof. destruct expression; [apply steps_ret | apply steps_exit]. Qed.

Lemma steps_for_each {A : Type} (l : list A) (body : A -> Cmd unit) :
  (forall x, steps R (body x)) -> steps R (for_each l body).
Proof.
  intros Hbody. induction l as [|x l IH]; simpl; [apply steps_ret|].
  apply steps_bind; [apply Hbody | intros _; exact IH].
Qed.

Lemma steps_fmap_cmd {A B : Type} (l : list A) (f : A -> Cmd B) :
  (forall x, steps R (f x)) -> steps R (fmap_cmd l f).
Proof.
  intros Hf. induction l as [|x l IH]; simpl; [apply steps_ret|].
  apply steps_bind; [apply Hf | intros y].
  apply steps_bind; [exact IH | intros ys; apply steps_ret].
Qed.

End Steps.

(** The trace grows by events that all satisfy [P]. *)
Definition grows_by (P : Event -> Prop) : relation World :=
  fun w w' => exists evs, trace w' = trace w ++ evs /\ Forall P evs.

(** As [grows_by], and the status database is left as it was. *)
Definition reads_only (P : Event -> Prop) : relation World :=
  fun w w' => status_db w' = status_db w /\ grows_by P w w'.

Global Instance grows_by_preorder (P : Event -> Prop) : PreOrder (grows_by P).
Proof.
  split.
  - intros w. exists []. split; [now rewrite app_nil_r | constructor].
  - intros w1 w2 w3 [e1 [H1 F1]] [e2 [H2 F2]]. exists (e1 ++ e2). split.
    + now rewrite H2, H1, app_assoc.
    + now apply Forall_app.
Qed.

Global Instance reads_only_preorder (P : Event -> Prop) : PreOrder (reads_only P).
Proof.
  split.
  - intros w. split; [reflexivity | reflexivity].
  - intros w1 w2 w3 [D1 G1] [D2 G2]. split; [congruence | exact (transitivity G1 G2)].
Qed.

Lemma steps_emit_grows (P : Event -> Prop) (e : Event) :
  P e -> steps (grows_by P) (emit e).
Proof. intros He w. exists [e]. split; [reflexivity | now repeat constructor]. Qed.

Lemma steps_emit_reads (P : Event -> Prop) (e : Event) :
  P e -> steps (reads_only P) (emit e).
Proof. intros He w. split; [reflexivity | now apply steps_emit_grows]. Qed.

Lemma steps_put_grows (P : Event -> Prop) (db : StatusParagraphs) :
  steps (grows_by P) (put_status_db db).
Proof. intros w. exists []. split; [simpl; now rewrite app_nil_r | constructor]. Qed.

Lemma reads_only_grows (P : Event -> Prop) {A : Type} (m : Cmd A) :
  steps (reads_only P) m -> steps (grows_by P) m.
Proof. intros H w. apply H. Qed.

(** ** The classification loop, bucket by bucket *)

Definition installed_version (db : StatusParagraphs) (spec : PackageSpec)
  : option Version :=
  match find_installed db spec with
  | Some installed =>
      Some (mkVersion (bp_version (package installed))
                      (bp_port_version (package installed)))
  | None => None
  end.

Definition control_version (provider : PortFileProvider) (spec : PackageSpec)
  : option Version :=
  match get_control_file provider (name spec) with
  | Some control_file =>
      let control_paragraph := core_paragraph (source_control_file control_file) in
      Some (mkVersion (raw_version control_paragraph) (sp_port_version control_paragraph))
  | None => None
  end.

Definition is_not_installed (db : StatusParagraphs) (spec : PackageSpec) : Prop :=
  installed_version db spec = None.

Definition has_no_control_file (provider : PortFileProvider) (spec : PackageSpec)
  : Prop :=
  control_version provider spec = None.

Definition is_up_to_date
           (db : StatusParagraphs) (provider : PortFileProvider) (spec : PackageSpec)
  : Prop :=
  is_Some (installed_version db spec) /\
  control_version provider spec = installed_version db spec.

Definition is_to_upgrade
           (db : StatusParagraphs) (provider : PortFileProvider) (spec : PackageSpec)
  : Prop :=
  is_Some (installed_version db spec) /\
  is_Some (control_version provider spec) /\
  control_version provider spec <> installed_version db spec.

Global Instance is_not_installed_dec db spec : Decision (is_not_installed db spec).
Proof. unfold is_not_installed. apply _. Defined.
Global Instance has_no_control_file_dec provider spec :
  Decision (has_no_control_file provider spec).
Proof. unfold has_no_control_file. apply _. Defined.
Global Instance is_up_to_date_dec db provider spec :
  Decision (is_up_to_date db provider spec).
Proof. unfold is_up_to_date. apply _. Defined.
Global Instance is_to_upgrade_dec db provider spec :
  Decision (is_to_upgrade db provider spec).
Proof. unfold is_to_upgrade. apply _. Defined.

(** The loop's vectors before the sorts: each is the input filtered by
    the bucket's condition, in input order. *)
Definition filtered
           (db : StatusParagraphs) (provider : PortFileProvider)
           (specs : list PackageSpec) : Buckets :=
  mkBuckets (filter (is_not_installed db) specs)
            (filter (has_no_control_file provider) specs)
            (filter (is_to_upgrade db provider) specs)
            (filter (is_up_to_date db provider) specs).

Definition append_buckets (b1 b2 : Buckets) : Buckets :=
  mkBuckets (not_installed b1 ++ not_installed b2)
            (no_control_file b1 ++ no_control_file b2)
            (to_upgrade b1 ++ to_upgrade b2)
            (up_to_date b1 ++ up_to_date b2).

Lemma filter_one {A : Type} (P : A -> Prop) `{!forall x, Decision (P x)} (x : A) :
  filter P [x] = if decide (P x) then [x] else [].
Proof. rewrite filter_cons, filter_nil. reflexivity. Qed.

Lemma installed_version_None db spec :
  installed_version db spec = None <-> find_installed db spec = None.
Proof. unfold installed_version. destruct (find_installed db spec); split; congruence. Qed.

Lemma control_version_None provider spec :
  control_version provider spec = None
  <-> get_control_file provider (name spec) = None.
Proof.
  unfold control_version.
  destruct (get_control_file provider (name spec)); split; congruence.
Qed.

Lemma not_installed_excludes db provider spec :
  is_not_installed db spec ->
  ~ is_up_to_date db provider spec /\ ~ is_to_upgrade db provider spec.
Proof.
  unfold is_not_installed, is_up_to_date, is_to_upgrade. intros H. rewrite H.
  split; intros [Hs _]; now apply is_Some_None in Hs.
Qed.

Lemma no_control_file_excludes db provider spec :
  has_no_control_file provider spec ->
  ~ is_up_to_date db provider spec /\ ~ is_to_upgrade db provider spec.
Proof.
  unfold has_no_control_file, is_up_to_date, is_to_upgrade. intros H. rewrite H.
  split.
  - intros [Hs Heq]. rewrite <- Heq in Hs. now apply is_Some_None in Hs.
  - intros [_ [Hs _]]. now apply is_Some_None in Hs.
Qed.

Lemma up_to_date_excludes db provider spec :
  is_up_to_date db provider spec ->
  ~ is_not_installed db spec /\ ~ has_no_control_file provider spec /\
  ~ is_to_upgrade db provider spec.
Proof.
  unfold is_not_installed, has_no_control_file, is_up_to_date, is_to_upgrade.
  intros [[v Hv] Heq]. rewrite Heq, Hv. repeat split; try discriminate.
  intros [_ [_ Hne]]. now apply Hne.
Qed.

Lemma to_upgrade_excludes db provider spec :
  is_to_upgrade db provider spec ->
  ~ is_not_installed db spec /\ ~ has_no_control_file provider spec /\
  ~ is_up_to_date db provider spec.
Proof.
  unfold is_not_installed, has_no_control_file, is_up_to_date, is_to_upgrade.
  intros [[v Hv] [[c Hc] Hne]]. rewrite Hv, Hc in *. repeat split; try discriminate.
  intros [_ Heq]. now apply Hne.
Qed.

Lemma classify_spec_run db provider b spec w :
  classify_spec db provider b spec w
  = Continue (append_buckets b (filtered db provider [spec])) w.
Proof.
  unfold classify_spec, filtered, append_buckets.
  rewrite !filter_one.
  destruct (find_installed db spec) as [installed|] eqn:Hi,
           (get_control_file provider (name spec)) as [control_file|] eqn:Hc;
    simpl; rewrite ?bind_ret.
  - assert (Hiv : installed_version db spec
                  = Some (mkVersion (bp_version (package installed))
                                    (bp_port_version (package installed))))
      by (unfold installed_version; now rewrite Hi).
    assert (Hcv : control_version provider spec
                  = Some (mkVersion
                            (raw_version (core_paragraph (source_control_file control_file)))
                            (sp_port_version (core_paragraph (source_control_file control_file)))))
      by (unfold control_version; now rewrite Hc).
    destruct (VersionOps.eqb _ _) eqn:Heq.
    + apply VersionOps.eqb_eq in Heq.
      assert (Hu : is_up_to_date db provider spec)
        by (unfold is_up_to_date; rewrite Hiv, Hcv, Heq; eauto).
      destruct (up_to_date_excludes _ _ _ Hu) as (N1 & N2 & N3).
      rewrite (decide_True (P := is_up_to_date db provider spec)) by exact Hu.
      rewrite (decide_False (P := is_not_installed db spec)) by exact N1.
      rewrite (decide_False (P := has_no_control_file provider spec)) by exact N2.
      rewrite (decide_False (P := is_to_upgrade db provider spec)) by exact N3.
      now rewrite !app_nil_r.
    + apply VersionOps.eqb_neq in Heq.
      assert (Hu : is_to_upgrade db provider spec)
        by (unfold is_to_upgrade; rewrite Hiv, Hcv; repeat split; eauto; congruence).
      destruct (to_upgrade_excludes _ _ _ Hu) as (N1 & N2 & N3).
      rewrite (decide_True (P := is_to_upgrade db provider spec)) by exact Hu.
      rewrite (decide_False (P := is_not_installed db spec)) by exact N1.
      rewrite (decide_False (P := has_no_control_file provider spec)) by exact N2.
      rewrite (decide_False (P := is_up_to_date db provider spec)) by exact N3.
      now rewrite !app_nil_r.
  - assert (Hr : has_no_control_file provider spec) by now apply control_version_None.
    assert (Hn : ~ is_not_installed db spec)
      by (unfold is_not_installed; rewrite installed_version_None; congruence).
    destruct (no_control_file_excludes db _ _ Hr) as (N1 & N2).
    rewrite (decide_True (P := has_no_control_file provider spec)) by exact Hr.
    rewrite (decide_False (P := is_not_installed db spec)) by exact Hn.
    rewrite (decide_False (P := is_up_to_date db provider spec)) by exact N1.
    rewrite (decide_False (P := is_to_upgrade db provider spec)) by exact N2.
    now rewrite !app_nil_r.
  - assert (Hm : is_not_installed db spec) by now apply installed_version_None.
    assert (Hr : ~ has_no_control_file provider spec)
      by (unfold has_no_control_file; rewrite control_version_None; congruence).
    destruct (not_installed_excludes _ provider _ Hm) as (N1 & N2).
    rewrite (decide_True (P := is_not_installed db spec)) by exact Hm.
    rewrite (decide_False (P := has_no_control_file provider spec)) by exact Hr.
    rewrite (decide_False (P := is_up_to_date db provider spec)) by exact N1.
    rewrite (decide_False (P := is_to_upgrade db provider spec)) by exact N2.
    now rewrite !app_nil_r.
  - assert (Hm : is_not_installed db spec) by now apply installed_version_None.
    assert (Hr : has_no_control_file provider spec) by now apply control_version_None.
    destruct (not_installed_excludes _ provider _ Hm) as (N1 & N2).
    rewrite (decide_True (P := is_not_installed db spec)) by exact Hm.
    rewrite (decide_True (P := has_no_control_file provider spec)) by exact Hr.
    rewrite (decide_False (P := is_up_to_date db provider spec)) by exact N1.
    rewrite (decide_False (P := is_to_upgrade db provider spec)) by exact N2.
    now rewrite !app_nil_r.
Qed.

Lemma append_filtered db provider b spec rest :
  append_buckets (append_buckets b (filtered db provider [spec]))
                 (filtered db provider rest)
  = append_buckets b (filtered db provider (spec :: rest)).
Proof.
  unfold append_buckets, filtered. simpl.
  rewrite <- !app_assoc, <- !filter_app. reflexivity.
Qed.

Lemma classify_loop_run db provider specs :
  forall b w,
    classify_loop db provider specs b w
    = Continue (append_buckets b (filtered db provider specs)) w.
Proof.
  induction specs as [|spec rest IH]; intros b w; simpl.
  - unfold append_buckets, filtered. simpl. rewrite !filter_nil, !app_nil_r.
    now destruct b.
  - rewrite (bind_continue _ _ _ _ _ (classify_spec_run db provider b spec w)).
    rewrite IH. now rewrite append_filtered.
Qed.

(** The classifier's result, as a function of its inputs. *)
Definition classified
           (db : StatusParagraphs) (provider : PortFileProvider)
           (specs : list PackageSpec) : Buckets :=
  mkBuckets (Util.sort (filter (is_not_installed db) specs))
            (Util.sort (filter (has_no_control_file provider) specs))
            (Util.sort (filter (is_to_upgrade db provider) specs))
            (Util.sort (filter (is_up_to_date db provider) specs)).

Lemma classifier_run db provider specs w :
  classifier db provider specs w = Continue (classified db provider specs) w.
Proof.
  unfold classifier.
  rewrite (bind_continue _ _ _ _ _ (classify_loop_run db provider specs empty_buckets w)).
  reflexivity.
Qed.

(** ** Runs of the phases *)

(** The world after some more events, the status database untouched. *)
Definition record (w : World) (evs : list Event) : World :=
  mkWorld (status_db w) (trace w ++ evs).

Lemma record_nil w : record w [] = w.
Proof. destruct w. unfold record. simpl. now rewrite app_nil_r. Qed.

Lemma record_record w e1 e2 : record (record w e1) e2 = record w (e1 ++ e2).
Proof. unfold record. simpl. now rewrite app_assoc. Qed.

Lemma emit_run e w : emit e w = Continue tt (record w [e]).
Proof. reflexivity. Qed.

Lemma print2_run color message w :
  print2 color message w = Continue tt (record w [EvPrint color message]).
Proof. reflexivity. Qed.

(** The events of one bucket summary: nothing for an empty bucket, else
    the header and the listing. *)
Definition bucket_summary (color : Color) (header : string) (bucket : list PackageSpec)
  : list Event :=
  if is_empty bucket then []
  else [EvPrint (Some color) header; EvPrint None (bucket_listing bucket)].

(** The events of source lines 166 to 189. *)
Definition classification_report (b : Buckets) : list Event :=
  bucket_summary Color_success up_to_date_header (up_to_date b)
  ++ bucket_summary Color_error not_installed_header (not_installed b)
  ++ bucket_summary Color_error no_control_file_header (no_control_file b).

Lemma print_buckets_run b w :
  print_buckets b w = Continue tt (record w (classification_report b)).
Proof.
  unfold print_buckets, classification_report, bucket_summary.
  destruct (up_to_date b), (not_installed b), (no_control_file b); simpl;
    unfold mbind, Cmd_bind, cmd_bind, print2, emit, record; simpl;
    rewrite <- ?app_assoc, ?app_nil_r; simpl; try reflexivity;
    now destruct w.
Qed.

Lemma plan_for_specs_run s host_triplet w :
  let b := classified (local_status_db s) (provider s) (specs s) in
  let w' := record w (classification_report b) in
  plan_for_specs s host_triplet w
  = if is_empty (not_installed b) && is_empty (no_control_file b)
    then if is_empty (to_upgrade b)
         then Exited EXIT_SUCCESS w'
         else Dependencies_create_upgrade_plan
                (provider s) (to_upgrade b) (local_status_db s)
                (mkCreateInstallPlanOptions host_triplet (unsupported_port_action s)) w'
    else Exited EXIT_FAILURE w'.
Proof.
  intros b w'. unfold plan_for_specs.
  rewrite (bind_continue _ _ _ _ _ (classifier_run _ _ _ w)). fold b.
  rewrite (bind_continue _ _ _ _ _ (print_buckets_run b w)). fold w'.
  clearbody w'. clearbody b.
  destruct (is_empty (not_installed b) && is_empty (no_control_file b));
    [|reflexivity].
  destruct (is_empty (to_upgrade b)); reflexivity.
Qed.

Lemma plan_for_outdated_run s host_triplet w :
  let outdated_packages := find_outdated_packages env (provider s) (local_status_db s) in
  plan_for_outdated s host_triplet w
  = if is_empty outdated_packages
    then Exited EXIT_SUCCESS
                (record w [EvFindOutdatedPackages; EvPrint None all_up_to_date_message])
    else Dependencies_create_upgrade_plan
           (provider s) (map op_spec outdated_packages) (local_status_db s)
           (mkCreateInstallPlanOptions host_triplet (unsupported_port_action s))
           (record w [EvFindOutdatedPackages]).
Proof.
  intros outdated_packages. unfold plan_for_outdated, Update_find_outdated_packages.
  fold outdated_packages.
  destruct (is_empty outdated_packages) eqn:He;
    unfold mbind, Cmd_bind, cmd_bind; simpl; rewrite He; simpl.
  - unfold record. simpl. now rewrite <- app_assoc.
  - reflexivity.
Qed.

Lemma create_upgrade_plan_run provider0 specs0 db options w :
  Dependencies_create_upgrade_plan provider0 specs0 db options w
  = match create_upgrade_plan env provider0 specs0 db options with
    | Some plan => Continue plan (record w [EvCreateUpgradePlan specs0 options])
    | None => Exited EXIT_FAILURE (record w [EvCreateUpgradePlan specs0 options])
    end.
Proof.
  unfold Dependencies_create_upgrade_plan, mbind, Cmd_bind, cmd_bind. simpl.
  now destruct (create_upgrade_plan env provider0 specs0 db options).
Qed.

Lemma fmap_cmd_value_or_exit {A B : Type} (g : A -> option B) (l : list A) w :
  fmap_cmd l (fun x => value_or_exit (g x)) w
  = match mapM g l with
    | Some ys => Continue ys w
    | None => Exited EXIT_FAILURE w
    end.
Proof.
  induction l as [|x l IH]; simpl; [reflexivity|].
  unfold mbind at 1, Cmd_bind, cmd_bind.
  destruct (g x) as [y|]; simpl; [|reflexivity].
  unfold mbind at 1, Cmd_bind, cmd_bind. rewrite IH.
  destruct (mapM g l); reflexivity.
Qed.

(** The sanitized specs of a command line, when every argument is a
    valid spec. *)
Definition sanitized_specs
           (args : VcpkgCmdArguments) (paths : VcpkgPaths) (default_triplet : Triplet)
  : option (list PackageSpec) :=
  mapM (fun arg => check_and_get_package_spec
                     env arg default_triplet (example_text COMMAND_STRUCTURE) paths)
       (command_arguments args).

Lemma startup_inv args paths default_triplet w s w' :
  startup args paths default_triplet w = Continue s w' ->
  w' = w /\
  local_status_db s = status_db w /\
  sanitized_specs args paths default_triplet = Some (specs s) /\
  exists options,
    parse_arguments env args COMMAND_STRUCTURE = Some options /\
    no_dry_run s = bool_decide (OPTION_NO_DRY_RUN ∈ switches options) /\
    keep_going s
    = (if bool_decide (OPTION_KEEP_GOING ∈ switches options) then YES
       else if bool_decide (OPTION_NO_KEEP_GOING ∈ switches options) then NO
            else YES).
Proof.
  unfold startup, sanitized_specs.
  destruct (manifest_mode_enabled paths); [discriminate|].
  simpl. rewrite bind_ret.
  destruct (parse_arguments env args COMMAND_STRUCTURE) as [options|];
    [|discriminate].
  simpl. rewrite bind_ret.
  unfold determine_keep_going.
  destruct (bool_decide (OPTION_KEEP_GOING ∈ switches options)) eqn:Hk,
           (bool_decide (OPTION_NO_KEEP_GOING ∈ switches options)) eqn:Hn;
    simpl;
    unfold database_load_check, get_status_db, Input_check_and_get_package_spec;
    unfold mbind, Cmd_bind, cmd_bind; simpl; try discriminate;
    rewrite fmap_cmd_value_or_exit;
    (destruct (mapM _ (command_arguments args)) as [ys|]; [|discriminate]);
    intros [= <- <-]; simpl;
    (split; [reflexivity|]); (split; [reflexivity|]); (split; [reflexivity|]);
    exists options; rewrite Hk, ?Hn; auto.
Qed.

Lemma startup_specs_nil args paths default_triplet w s w' :
  startup args paths default_triplet w = Continue s w' ->
  command_arguments args = [] -> specs s = [].
Proof.
  intros H Hnil. apply startup_inv in H as (_ & _ & Hs & _).
  unfold sanitized_specs in Hs. rewrite Hnil in Hs.
  change (Some [] = Some (specs s)) in Hs. congruence.
Qed.

Definition warning_events (plan : ActionPlan) : list Event :=
  map (fun warning => EvPrint (Some Color_warning) (warning +:+ newline))
      (warnings plan).

Lemma for_each_print_run (color : option Color) (l : list string) :
  forall w,
    for_each l (fun warning => print2 color (warning +:+ newline)) w
    = Continue tt (record w (map (fun warning => EvPrint color (warning +:+ newline)) l)).
Proof.
  induction l as [|x l IH]; intros w; simpl.
  - now rewrite record_nil.
  - rewrite (bind_continue _ _ _ _ _ (print2_run color (x +:+ newline) w)).
    rewrite IH, record_record. reflexivity.
Qed.

Lemma present_and_execute_dry_run args paths host_triplet s plan w :
  ActionPlan_empty plan = false ->
  no_dry_run s = false ->
  present_and_execute args paths host_triplet s plan w
  = Exited EXIT_FAILURE
      (record w (warning_events plan
                 ++ [EvPrintPlan (set_build_options plan) true
                                 (builtin_ports_directory paths);
                     EvPrint (Some Color_warning) dry_run_advisory])).
Proof.
  intros He Hd. unfold present_and_execute. rewrite He, Hd.
  erewrite bind_continue by reflexivity.
  erewrite bind_continue by apply for_each_print_run.
  erewrite bind_continue by apply emit_run.
  erewrite bind_exited; [reflexivity|]. simpl.
  erewrite bind_continue by apply print2_run.
  unfold Checks_exit_fail, exit_process, warning_events.
  now rewrite !record_record.
Qed.

Definition summary_events (keep_going : KeepGoing) (summary : InstallSummary)
  : list Event :=
  match keep_going with
  | YES => [EvSummaryPrint summary]
  | NO => []
  end.

Lemma Install_perform_returned args plan keep_going paths w summary db' :
  install_perform env args plan keep_going paths (status_db w) = Returned summary db' ->
  Install_perform args plan keep_going paths w
  = Continue summary (mkWorld db' (trace w ++ [EvInstallPerform plan keep_going])).
Proof.
  intros H. unfold Install_perform, mbind, Cmd_bind, cmd_bind. simpl.
  rewrite H. reflexivity.
Qed.

Lemma present_and_execute_committed args paths host_triplet s plan w summary db' :
  ActionPlan_empty plan = false ->
  no_dry_run s = true ->
  install_perform env args (set_build_options plan) (keep_going s) paths (status_db w)
  = Returned summary db' ->
  present_and_execute args paths host_triplet s plan w
  = Exited EXIT_SUCCESS
      (mkWorld db'
         (trace w
          ++ warning_events plan
          ++ [EvPrintPlan (set_build_options plan) true (builtin_ports_directory paths);
              EvLoadTagVars (set_build_options plan) host_triplet;
              EvInstallPerform (set_build_options plan) (keep_going s);
              EvPrint None elapsed_time_message]
          ++ summary_events (keep_going s) summary)).
Proof.
  intros He Hd Hp. unfold present_and_execute. rewrite He, Hd.
  erewrite bind_continue by reflexivity.
  erewrite bind_continue by apply for_each_print_run.
  erewrite bind_continue by apply emit_run.
  erewrite bind_continue by reflexivity.
  erewrite bind_continue by apply emit_run.
  erewrite bind_continue by (apply Install_perform_returned; exact Hp).
  erewrite bind_continue by apply print2_run.
  unfold warning_events, summary_events, record. simpl.
  destruct (keep_going s); simpl;
    unfold mbind, Cmd_bind, cmd_bind, Checks_exit_success, exit_process; simpl;
    rewrite <- ?app_assoc; simpl; rewrite ?app_nil_r; reflexivity.
Qed.

(** ** What the phases may emit *)

(** Every install action carries the system default build options. *)
Definition uniform_build_options (plan : ActionPlan) : Prop :=
  Forall (fun action => build_options action = default_build_package_options)
         (install_actions plan).

Lemma set_build_options_uniform plan :
  uniform_build_options (set_build_options plan).
Proof.
  unfold uniform_build_options, set_build_options. simpl.
  apply Forall_map. apply Forall_true. reflexivity.
Qed.

(** The events of the executor (loading tag variables, running the
    installer, printing its summary) are absent. *)
Definition no_execution (e : Event) : Prop :=
  match e with
  | EvLoadTagVars _ _ | EvInstallPerform _ _ | EvSummaryPrint _ => False
  | _ => True
  end.

(** The events of the phases before the plan is presented. *)
Definition planning_event (e : Event) : Prop :=
  match e with
  | EvPrintPlan _ _ _ | EvLoadTagVars _ _ | EvInstallPerform _ _
  | EvSummaryPrint _ => False
  | _ => True
  end.

(** Every plan an event hands to the presenter, the variable provider or
    the installer has uniform build options. *)
Definition presents_uniform_plan (e : Event) : Prop :=
  match e with
  | EvPrintPlan plan _ _ | EvLoadTagVars plan _ | EvInstallPerform plan _ =>
      uniform_build_options plan
  | _ => True
  end.

Ltac step_bind := apply steps_bind; [apply _ | | intros ?].
Ltac step_done :=
  first [ apply steps_ret; apply _
        | apply steps_exit; apply _
        | apply steps_get; apply _
        | apply steps_value_or_exit; apply _
        | apply steps_check_exit; apply _ ].

Lemma steps_pure (R : relation World) `{!PreOrder R} {A : Type} (m : Cmd A) (g : A) :
  (forall w, m w = Continue g w) -> steps R m.
Proof. intros H w. rewrite H. simpl. reflexivity. Qed.

Section Reads.

(** The phases before the presenter: they leave the status database
    alone and emit planning events only. *)
Variable P : Event -> Prop.
Hypothesis P_planning : forall e, planning_event e -> P e.

Lemma emit_reads e : planning_event e -> steps (reads_only P) (emit e).
Proof. intros H. apply steps_emit_reads. now apply P_planning. Qed.

Lemma determine_keep_going_reads k n :
  steps (reads_only P) (determine_keep_going k n).
Proof.
  unfold determine_keep_going, Checks_check_exit_msg.
  step_bind.
  - destruct (negb (k && n)); [step_done|].
    step_bind; [apply emit_reads; exact I | step_done].
  - destruct k; [step_done|]. destruct n; step_done.
Qed.

Lemma startup_reads args paths default_triplet :
  steps (reads_only P) (startup args paths default_triplet).
Proof.
  unfold startup.
  step_bind.
  { apply steps_when; [apply _|]. unfold Checks_exit_maybe_upgrade.
    step_bind; [apply emit_reads; exact I|].
    step_bind; [apply emit_reads; exact I|]. step_done. }
  step_bind; [step_done|].
  step_bind; [apply determine_keep_going_reads|].
  step_bind; [step_done|].
  step_bind; [|step_done].
  apply steps_fmap_cmd; [apply _|intros arg]. step_done.
Qed.

Lemma create_upgrade_plan_reads provider0 specs0 db options :
  steps (reads_only P) (Dependencies_create_upgrade_plan provider0 specs0 db options).
Proof.
  unfold Dependencies_create_upgrade_plan.
  step_bind; [apply emit_reads; exact I | step_done].
Qed.

Lemma bucket_summary_reads b color header bucket :
  steps (reads_only P)
        (when b (print2 color header ;; print2 None (bucket_listing bucket))).
Proof.
  apply steps_when; [apply _|].
  step_bind; apply emit_reads; exact I.
Qed.

Lemma print_buckets_reads b : steps (reads_only P) (print_buckets b).
Proof.
  unfold print_buckets.
  step_bind; [apply bucket_summary_reads|].
  step_bind; [apply bucket_summary_reads|].
  apply bucket_summary_reads.
Qed.

Lemma choose_plan_reads s host_triplet :
  steps (reads_only P) (choose_plan s host_triplet).
Proof.
  unfold choose_plan. destruct (is_empty (specs s)).
  - unfold plan_for_outdated, Update_find_outdated_packages.
    step_bind.
    { step_bind; [apply emit_reads; exact I | step_done]. }
    step_bind; [|apply create_upgrade_plan_reads].
    apply steps_when; [apply _|].
    step_bind; [apply emit_reads; exact I | step_done].
  - unfold plan_for_specs.
    step_bind.
    { apply (steps_pure _ _ (classified (local_status_db s) (provider s) (specs s))).
      intros w. apply classifier_run. }
    step_bind; [apply print_buckets_reads|].
    step_bind; [step_done|].
    step_bind; [|apply create_upgrade_plan_reads].
    apply steps_when; [apply _|]. step_done.
Qed.

End Reads.

Lemma planning_no_execution e : planning_event e -> no_execution e.
Proof. now destruct e. Qed.

Lemma planning_presents_uniform e : planning_event e -> presents_uniform_plan e.
Proof. now destruct e. Qed.

Lemma Install_perform_grows args plan kg paths :
  uniform_build_options plan ->
  steps (grows_by presents_uniform_plan) (Install_perform args plan kg paths).
Proof.
  intros Hu. unfold Install_perform.
  step_bind; [apply steps_emit_grows; exact Hu|].
  intros w. unfold mbind, Cmd_bind, cmd_bind. simpl.
  destruct (install_perform env args plan kg paths (status_db w)); simpl;
    exists []; (split; [now rewrite app_nil_r | constructor]).
Qed.

Lemma present_and_execute_grows args paths host_triplet s plan :
  steps (grows_by presents_uniform_plan)
        (present_and_execute args paths host_triplet s plan).
Proof.
  unfold present_and_execute.
  step_bind; [step_done|].
  step_bind.
  { apply steps_for_each; [apply _|intros warning].
    apply steps_emit_grows. exact I. }
  step_bind.
  { apply steps_emit_grows. apply set_build_options_uniform. }
  step_bind.
  { apply steps_when; [apply _|].
    step_bind; [apply steps_emit_grows; exact I | step_done]. }
  step_bind.
  { apply steps_emit_grows. apply set_build_options_uniform. }
  step_bind.
  { apply Install_perform_grows. apply set_build_options_uniform. }
  step_bind; [apply steps_emit_grows; exact I|].
  step_bind; [|step_done].
  apply steps_when; [apply _|]. apply steps_emit_grows. exact I.
Qed.

Lemma perform_and_exit_grows args paths default_triplet host_triplet :
  steps (grows_by presents_uniform_plan)
        (perform_and_exit args paths default_triplet host_triplet).
Proof.
  unfold perform_and_exit.
  step_bind.
  { apply reads_only_grows, startup_reads, planning_presents_uniform. }
  step_bind.
  { apply reads_only_grows, choose_plan_reads, planning_presents_uniform. }
  apply present_and_execute_grows.
Qed.

Lemma perform_and_exit_exits args paths default_triplet host_triplet w :
  exists code w',
    perform_and_exit args paths default_triplet host_triplet w = Exited code w'.
Proof.
  destruct (perform_and_exit args paths default_triplet host_triplet w)
    as [[]|code w']; eauto.
Qed.

(** ** Properties of the command *)

(** C2: the keep-going resolution helper, on each of the four pairs of
    switch flags: both set is fatal (nonzero exit) and the error message
    names the option [keep-going]; only [--keep-going] gives YES; only
    [--no-keep-going] gives NO; neither gives YES. *)
Theorem determine_keep_going_resolution (w : World) :
  determine_keep_going true true w
  = Exited EXIT_FAILURE
           (record w [EvPrintMessage (Some Color_error)
                        (msgBothYesAndNoOptionSpecifiedError "keep-going")])
  /\ EXIT_FAILURE <> 0
  /\ determine_keep_going true false w = Continue YES w
  /\ determine_keep_going false true w = Continue NO w
  /\ determine_keep_going false false w = Continue YES w.
Proof. repeat split. discriminate. Qed.

Lemma perform_and_exit_specs args paths default_triplet host_triplet w s w0 :
  startup args paths default_triplet w = Continue s w0 ->
  specs s <> [] ->
  perform_and_exit args paths default_triplet host_triplet w
  = (plan_for_specs s host_triplet
     ≫= present_and_execute args paths host_triplet s) w.
Proof.
  intros Hs Hne. unfold perform_and_exit.
  destruct (startup_inv _ _ _ _ _ _ Hs) as (-> & _).
  rewrite (bind_continue _ _ _ _ _ Hs).
  unfold choose_plan. destruct (specs s); [congruence | reflexivity].
Qed.

Lemma perform_and_exit_no_specs args paths default_triplet host_triplet w s w0 :
  startup args paths default_triplet w = Continue s w0 ->
  specs s = [] ->
  perform_and_exit args paths default_triplet host_triplet w
  = (plan_for_outdated s host_triplet
     ≫= present_and_execute args paths host_triplet s) w.
Proof.
  intros Hs Hnil. unfold perform_and_exit.
  destruct (startup_inv _ _ _ _ _ _ Hs) as (-> & _).
  rewrite (bind_continue _ _ _ _ _ Hs).
  unfold choose_plan. rewrite Hnil. reflexivity.
Qed.

Lemma is_empty_true {A : Type} (l : list A) : is_empty l = true <-> l = [].
Proof. destruct l; simpl; split; congruence. Qed.

Lemma is_empty_false {A : Type} (l : list A) : is_empty l = false <-> l <> [].
Proof. destruct l; simpl; split; congruence. Qed.

Lemma classification_report_prints b :
  Forall (fun e => exists color message, e = EvPrint color message)
         (classification_report b).
Proof.
  unfold classification_report, bucket_summary.
  repeat apply Forall_app_2;
    match goal with |- context [is_empty ?l] => destruct (is_empty l) end;
    repeat constructor; eauto.
Qed.

Lemma specs_run_failure args paths default_triplet host_triplet w s w0 :
  startup args paths default_triplet w = Continue s w0 ->
  specs s <> [] ->
  let b := classified (local_status_db s) (provider s) (specs s) in
  not_installed b <> [] \/ no_control_file b <> [] ->
  perform_and_exit args paths default_triplet host_triplet w
  = Exited EXIT_FAILURE (record w (classification_report b)).
Proof.
  intros Hs Hne b Hbad.
  rewrite (perform_and_exit_specs _ _ _ _ _ _ _ Hs Hne).
  apply bind_exited. rewrite plan_for_specs_run. fold b.
  destruct Hbad as [H|H]; apply is_empty_false in H; rewrite H;
    [reflexivity | now rewrite andb_false_r].
Qed.

Lemma specs_run_nothing_to_do args paths default_triplet host_triplet w s w0 :
  startup args paths default_triplet w = Continue s w0 ->
  specs s <> [] ->
  let b := classified (local_status_db s) (provider s) (specs s) in
  not_installed b = [] -> no_control_file b = [] -> to_upgrade b = [] ->
  perform_and_exit args paths default_triplet host_triplet w
  = Exited EXIT_SUCCESS (record w (classification_report b)).
Proof.
  intros Hs Hne b H1 H2 H3.
  rewrite (perform_and_exit_specs _ _ _ _ _ _ _ Hs Hne).
  apply bind_exited. rewrite plan_for_specs_run. fold b.
  apply is_empty_true in H1, H2, H3. now rewrite H1, H2, H3.
Qed.

(** C1 (amended): on a run with at least one user-supplied spec, if
    not_installed or no_recipe is non-empty after classification, the
    command exits nonzero after printing the summaries of the non-empty
    buckets among up_to_date, not_installed and no_recipe, and it never
    calls [create_upgrade_plan], whatever to_upgrade holds; if both are
    empty and to_upgrade is empty too, it exits with success without
    planning. *)
Theorem classification_termination_policy
        args paths default_triplet host_triplet w s w0 :
  startup args paths default_triplet w = Continue s w0 ->
  specs s <> [] ->
  exists b,
    classifier (local_status_db s) (provider s) (specs s) w = Continue b w /\
    ((not_installed b <> [] \/ no_control_file b <> []) ->
     perform_and_exit args paths default_triplet host_triplet w
     = Exited EXIT_FAILURE (record w (classification_report b))) /\
    (not_installed b = [] -> no_control_file b = [] -> to_upgrade b = [] ->
     perform_and_exit args paths default_triplet host_triplet w
     = Exited EXIT_SUCCESS (record w (classification_report b))) /\
    Forall (fun e => exists color message, e = EvPrint color message)
           (classification_report b) /\
    (forall specs0 options,
        EvCreateUpgradePlan specs0 options ∉ classification_report b) /\
    EXIT_FAILURE <> 0 /\ EXIT_SUCCESS = 0.
Proof.
  intros Hs Hne.
  exists (classified (local_status_db s) (provider s) (specs s)).
  split; [apply classifier_run|].
  set (b := classified (local_status_db s) (provider s) (specs s)).
  repeat split.
  - now apply (specs_run_failure _ _ _ _ _ _ _ Hs Hne).
  - now apply (specs_run_nothing_to_do _ _ _ _ _ _ _ Hs Hne).
  - apply classification_report_prints.
  - intros specs0 options Hin.
    pose proof (classification_report_prints b) as Hall.
    rewrite Forall_forall in Hall.
    destruct (Hall _ Hin) as (color & message & Heq). discriminate Heq.
  - discriminate.
Qed.

Lemma elem_of_not_installed db provider0 specs0 spec :
  spec ∈ not_installed (classified db provider0 specs0)
  <-> spec ∈ specs0 /\ find_installed db spec = None.
Proof.
  unfold classified. simpl.
  rewrite Util.elem_of_sort, list_elem_of_filter.
  unfold is_not_installed. rewrite installed_version_None. tauto.
Qed.

Lemma elem_of_no_control_file db provider0 specs0 spec :
  spec ∈ no_control_file (classified db provider0 specs0)
  <-> spec ∈ specs0 /\ get_control_file provider0 (name spec) = None.
Proof.
  unfold classified. simpl.
  rewrite Util.elem_of_sort, list_elem_of_filter.
  unfold has_no_control_file. rewrite control_version_None. tauto.
Qed.

Lemma elem_of_up_to_date db provider0 specs0 spec :
  spec ∈ up_to_date (classified db provider0 specs0)
  <-> spec ∈ specs0 /\ is_up_to_date db provider0 spec.
Proof.
  unfold classified. simpl.
  rewrite Util.elem_of_sort, list_elem_of_filter. tauto.
Qed.

Lemma elem_of_to_upgrade db provider0 specs0 spec :
  spec ∈ to_upgrade (classified db provider0 specs0)
  <-> spec ∈ specs0 /\ is_to_upgrade db provider0 spec.
Proof.
  unfold classified. simpl.
  rewrite Util.elem_of_sort, list_elem_of_filter. tauto.
Qed.

(** C3: a user-supplied spec that is installed and has a recipe is
    classified by structural equality of the recipe version (upstream
    string, port revision) and the installed version alone: equal versions
    put it in up_to_date, any inequality (an older recipe included) puts it
    in to_upgrade; nothing else about the versions is consulted. *)
Theorem classifier_compares_versions_by_equality
        db provider0 specs0 spec installed0 control_file w :
  spec ∈ specs0 ->
  find_installed db spec = Some installed0 ->
  get_control_file provider0 (name spec) = Some control_file ->
  let recipe :=
    mkVersion (raw_version (core_paragraph (source_control_file control_file)))
              (sp_port_version (core_paragraph (source_control_file control_file))) in
  let current :=
    mkVersion (bp_version (package installed0)) (bp_port_version (package installed0)) in
  exists b,
    classifier db provider0 specs0 w = Continue b w /\
    (spec ∉ not_installed b) /\
    (spec ∉ no_control_file b) /\
    (recipe = current -> spec ∈ up_to_date b /\ (spec ∉ to_upgrade b)) /\
    (recipe <> current -> spec ∈ to_upgrade b /\ (spec ∉ up_to_date b)).
Proof.
  intros Hin Hi Hc recipe current.
  exists (classified db provider0 specs0).
  split; [apply classifier_run|].
  assert (Hiv : installed_version db spec = Some current)
    by (unfold installed_version; now rewrite Hi).
  assert (Hcv : control_version provider0 spec = Some recipe)
    by (unfold control_version; now rewrite Hc).
  rewrite elem_of_not_installed, elem_of_no_control_file,
    elem_of_up_to_date, elem_of_to_upgrade.
  unfold is_up_to_date, is_to_upgrade. rewrite Hiv, Hcv.
  split; [intros [_ E]; congruence|].
  split; [intros [_ E]; congruence|].
  split.
  - intros Heq. split.
    + split; [exact Hin|]. split; [eauto | congruence].
    + intros [_ (_ & _ & Hne)]. congruence.
  - intros Hne. split.
    + split; [exact Hin|]. repeat split; eauto. congruence.
    + intros [_ [_ E]]. congruence.
Qed.

(** A diagnostic for [spec] under [header]: the header in the error
    colour, immediately followed by a listing that holds the line of
    [spec]. *)
Definition diagnosed (header : string) (spec : PackageSpec) (tr : list Event) : Prop :=
  exists bucket before after earlier later,
    tr = earlier ++ [EvPrint (Some Color_error) header;
                     EvPrint None (bucket_listing bucket)] ++ later /\
    bucket_listing bucket = before +:+ spec_line spec +:+ after.

(** C5: a user-supplied spec with no installed record whose port has no
    recipe lands in both the not_installed and the no_recipe bucket (the
    recipe lookup is made although the installed lookup failed), and the
    run prints both diagnostics for it before it fails. *)
Theorem missing_and_recipeless_in_both_buckets
        args paths default_triplet host_triplet w s w0 spec :
  startup args paths default_triplet w = Continue s w0 ->
  spec ∈ specs s ->
  find_installed (local_status_db s) spec = None ->
  get_control_file (provider s) (name spec) = None ->
  exists b w',
    classifier (local_status_db s) (provider s) (specs s) w = Continue b w /\
    spec ∈ not_installed b /\
    spec ∈ no_control_file b /\
    perform_and_exit args paths default_triplet host_triplet w
    = Exited EXIT_FAILURE w' /\
    diagnosed not_installed_header spec (trace w') /\
    diagnosed no_control_file_header spec (trace w').
Proof.
  intros Hs Hin Hi Hc.
  set (b := classified (local_status_db s) (provider s) (specs s)).
  assert (Hni : spec ∈ not_installed b) by (apply elem_of_not_installed; auto).
  assert (Hnc : spec ∈ no_control_file b) by (apply elem_of_no_control_file; auto).
  assert (Hne : specs s <> []) by (intros E; rewrite E in Hin; inversion Hin).
  assert (Hni' : not_installed b <> []) by (intros E; rewrite E in Hni; inversion Hni).
  assert (Hnc' : no_control_file b <> []) by (intros E; rewrite E in Hnc; inversion Hnc).
  exists b, (record w (classification_report b)).
  split; [apply classifier_run|].
  split; [exact Hni|]. split; [exact Hnc|].
  split; [apply (specs_run_failure _ _ _ _ _ _ _ Hs Hne); now left|].
  clearbody b.
  unfold classification_report, bucket_summary, record. cbn [trace].
  apply is_empty_false in Hni', Hnc'. rewrite Hni', Hnc'.
  set (summary_up := if is_empty (up_to_date b) then []
                     else [EvPrint (Some Color_success) up_to_date_header;
                           EvPrint None (bucket_listing (up_to_date b))]).
  destruct (Strings.join_mentions (not_installed b) spec_line spec newline Hni)
    as (b1 & a1 & E1).
  destruct (Strings.join_mentions (no_control_file b) spec_line spec newline Hnc)
    as (b2 & a2 & E2).
  split.
  - exists (not_installed b), b1, a1, (trace w ++ summary_up),
      [EvPrint (Some Color_error) no_control_file_header;
       EvPrint None (bucket_listing (no_control_file b))].
    split; [|exact E1]. now rewrite <- app_assoc.
  - exists (no_control_file b), b2, a2,
      (trace w ++ summary_up
       ++ [EvPrint (Some Color_error) not_installed_header;
           EvPrint None (bucket_listing (not_installed b))]), [].
    split; [|exact E2]. now rewrite app_nil_r, <- !app_assoc.
Qed.

Lemma classified_Permutation db provider0 specs1 specs2 :
  specs1 ≡ₚ specs2 -> classified db provider0 specs1 = classified db provider0 specs2.
Proof.
  intros H. unfold classified.
  f_equal; apply Util.sort_unique; now rewrite H.
Qed.

Lemma le_is_lexicographic (a b : PackageSpec) :
  PackageSpecOps.le a b
  <-> StdString.lt (name a) (name b) = true \/
      (name a = name b /\ StdString.lt (triplet b) (triplet a) = false).
Proof.
  unfold PackageSpecOps.le, PackageSpecOps.lt.
  destruct (StdString.lt (name b) (name a)) eqn:Hba,
           (StdString.lt (name a) (name b)) eqn:Hab.
  - rewrite (StdString.lt_asym _ _ Hba) in Hab. discriminate Hab.
  - split; [discriminate|]. intros [H|[H _]]; [discriminate H|].
    rewrite H, StdString.lt_irrefl in Hba. discriminate Hba.
  - split; auto.
  - pose proof (StdString.lt_trichotomy _ _ Hab Hba) as Heq.
    split; [auto|]. intros [H|[_ H]]; [discriminate H | exact H].
Qed.

Lemma filter_not_installed db (specs0 : list PackageSpec) :
  filter (is_not_installed db) specs0
  = filter (fun spec => find_installed db spec = None) specs0.
Proof. apply list_filter_iff. intros spec. apply installed_version_None. Qed.

Lemma filter_no_control_file provider0 (specs0 : list PackageSpec) :
  filter (has_no_control_file provider0) specs0
  = filter (fun spec => get_control_file provider0 (name spec) = None) specs0.
Proof. apply list_filter_iff. intros spec. apply control_version_None. Qed.

(** C6: after classification each of the four buckets holds the input
    specs that meet its condition, as often as they were given, sorted by
    the order on PackageSpec, which is the lexicographic order on (name,
    triplet) and is total; so two input lists that are permutations of each
    other give the same four buckets, as ordered sequences. *)
Theorem buckets_sorted_whatever_the_input_order db provider0 specs1 specs2 w1 w2 :
  specs1 ≡ₚ specs2 ->
  exists b,
    classifier db provider0 specs1 w1 = Continue b w1 /\
    classifier db provider0 specs2 w2 = Continue b w2 /\
    (Sorted PackageSpecOps.le (not_installed b) /\
     Sorted PackageSpecOps.le (no_control_file b) /\
     Sorted PackageSpecOps.le (to_upgrade b) /\
     Sorted PackageSpecOps.le (up_to_date b)) /\
    (not_installed b
     ≡ₚ filter (fun spec => find_installed db spec = None) specs1) /\
    (no_control_file b
     ≡ₚ filter (fun spec => get_control_file provider0 (name spec) = None) specs1) /\
    (to_upgrade b ≡ₚ filter (is_to_upgrade db provider0) specs1) /\
    (up_to_date b ≡ₚ filter (is_up_to_date db provider0) specs1) /\
    (forall x y,
        PackageSpecOps.le x y
        <-> StdString.lt (name x) (name y) = true \/
            (name x = name y /\ StdString.lt (triplet y) (triplet x) = false)) /\
    (forall x y, PackageSpecOps.le x y \/ PackageSpecOps.le y x) /\
    (forall x y, PackageSpecOps.le x y -> PackageSpecOps.le y x -> x = y) /\
    (forall x y z, PackageSpecOps.le x y -> PackageSpecOps.le y z -> PackageSpecOps.le x z).
Proof.
  intros H. exists (classified db provider0 specs1).
  split; [apply classifier_run|].
  split; [rewrite (classified_Permutation _ _ _ _ H); apply classifier_run|].
  unfold classified. simpl.
  split; [repeat split; apply Util.sort_Sorted|].
  split; [rewrite Util.sort_Permutation; now rewrite filter_not_installed|].
  split; [rewrite Util.sort_Permutation; now rewrite filter_no_control_file|].
  split; [apply Util.sort_Permutation|].
  split; [apply Util.sort_Permutation|].
  split; [apply le_is_lexicographic|].
  split; [apply PackageSpecOps.le_total|].
  split.
  - intros x y. apply PackageSpecOps.le_antisym.
  - intros x y z. apply PackageSpecOps.le_trans.
Qed.

(** C7: on a run with no user-supplied spec in which the scan for
    outdated packages finds nothing, the command prints the message that
    starts with [All installed packages are up-to-date] and exits with
    success; no plan is built or printed. *)
Theorem nothing_outdated_exits_success args paths default_triplet host_triplet w s w0 :
  startup args paths default_triplet w = Continue s w0 ->
  command_arguments args = [] ->
  find_outdated_packages env (provider s) (local_status_db s) = [] ->
  perform_and_exit args paths default_triplet host_triplet w
  = Exited EXIT_SUCCESS
           (record w [EvFindOutdatedPackages; EvPrint None all_up_to_date_message]) /\
  String.prefix "All installed packages are up-to-date" all_up_to_date_message = true /\
  EXIT_SUCCESS = 0.
Proof.
  intros Hs Hargs Hnone.
  pose proof (startup_specs_nil _ _ _ _ _ _ Hs Hargs) as Hnil.
  split; [|split; reflexivity].
  rewrite (perform_and_exit_no_specs _ _ _ _ _ _ _ Hs Hnil).
  apply bind_exited. rewrite plan_for_outdated_run, Hnone. reflexivity.
Qed.

Lemma perform_and_exit_planned args paths default_triplet host_triplet w s w0 plan w1 :
  startup args paths default_triplet w = Continue s w0 ->
  choose_plan s host_triplet w = Continue plan w1 ->
  perform_and_exit args paths default_triplet host_triplet w
  = present_and_execute args paths host_triplet s plan w1 /\
  status_db w1 = status_db w /\
  exists evs, trace w1 = trace w ++ evs /\ Forall planning_event evs.
Proof.
  intros Hs Hp.
  destruct (startup_inv _ _ _ _ _ _ Hs) as (-> & _).
  split.
  - unfold perform_and_exit.
    rewrite (bind_continue _ _ _ _ _ Hs). now rewrite (bind_continue _ _ _ _ _ Hp).
  - pose proof (choose_plan_reads planning_event (fun e H => H) s host_triplet w) as H.
    rewrite Hp in H. exact H.
Qed.

(** C4: on a run without [--no-dry-run] whose action plan is not empty,
    the command prints the plan, then the advisory to rerun with
    [--no-dry-run], and exits nonzero; the installer is not run, no tag
    variables are loaded, and the status database is left as it was. *)
Theorem dry_run_gate args paths default_triplet host_triplet w s w0 options plan w1 :
  startup args paths default_triplet w = Continue s w0 ->
  parse_arguments env args COMMAND_STRUCTURE = Some options ->
  OPTION_NO_DRY_RUN ∉ switches options ->
  choose_plan s host_triplet w = Continue plan w1 ->
  ActionPlan_empty plan = false ->
  exists w' evs,
    perform_and_exit args paths default_triplet host_triplet w
    = Exited EXIT_FAILURE w' /\
    EXIT_FAILURE <> 0 /\
    status_db w' = status_db w /\
    trace w'
    = trace w ++ evs
      ++ [EvPrintPlan (set_build_options plan) true (builtin_ports_directory paths);
          EvPrint (Some Color_warning) dry_run_advisory] /\
    Forall no_execution
           (evs ++ [EvPrintPlan (set_build_options plan) true
                                (builtin_ports_directory paths);
                    EvPrint (Some Color_warning) dry_run_advisory]).
Proof.
  intros Hs Hopt Hdry Hp Hne.
  destruct (startup_inv _ _ _ _ _ _ Hs) as (_ & _ & _ & options' & Hopt' & Hd & _).
  assert (options' = options) by congruence. subst options'.
  rewrite bool_decide_eq_false_2 in Hd by exact Hdry.
  destruct (perform_and_exit_planned _ _ _ host_triplet _ _ _ _ _ Hs Hp)
    as (Hrun & Hdb & evs & Htr & Hall).
  rewrite Hrun, (present_and_execute_dry_run _ _ _ _ _ _ Hne Hd).
  eexists _, (evs ++ warning_events plan).
  split; [reflexivity|]. split; [discriminate|].
  split; [exact Hdb|]. split.
  - unfold record. simpl. rewrite Htr, <- !app_assoc. reflexivity.
  - rewrite <- app_assoc. apply Forall_app. split.
    + eapply Forall_impl; [exact Hall | apply planning_no_execution].
    + apply Forall_app. split; [|repeat constructor].
      unfold warning_events. apply Forall_map. apply Forall_true. intros x. exact I.
Qed.

(** C9: on a run that passes the dry-run gate and in which the installer
    returns, the command prints the total elapsed time, prints the
    per-action summary exactly when KeepGoing is YES, and exits with
    success, whatever the outcomes in the summary are. *)
Theorem committed_run_reports_and_succeeds
        args paths default_triplet host_triplet w s w0 plan w1 summary db' :
  startup args paths default_triplet w = Continue s w0 ->
  choose_plan s host_triplet w = Continue plan w1 ->
  ActionPlan_empty plan = false ->
  no_dry_run s = true ->
  install_perform env args (set_build_options plan) (keep_going s) paths (status_db w1)
  = Returned summary db' ->
  perform_and_exit args paths default_triplet host_triplet w
  = Exited EXIT_SUCCESS
      (mkWorld db'
         (trace w1
          ++ warning_events plan
          ++ [EvPrintPlan (set_build_options plan) true (builtin_ports_directory paths);
              EvLoadTagVars (set_build_options plan) host_triplet;
              EvInstallPerform (set_build_options plan) (keep_going s);
              EvPrint None (newline +:+ "Total elapsed time: " +:+ timer_to_string env
                            +:+ newline +:+ newline)]
          ++ match keep_going s with
             | YES => [EvSummaryPrint summary]
             | NO => []
             end)) /\
  EXIT_SUCCESS = 0.
Proof.
  intros Hs Hp Hne Hd Hinst. split; [|reflexivity].
  destruct (perform_and_exit_planned _ _ _ host_triplet _ _ _ _ _ Hs Hp) as (Hrun & _).
  rewrite Hrun.
  apply (present_and_execute_committed _ _ _ _ _ _ _ _ Hne Hd Hinst).
Qed.

(** The number of occurrences of a spec in a vector. *)
Definition occurrences (spec : PackageSpec) (l : list PackageSpec) : nat :=
  count_occ PackageSpec_eq_dec l spec.

Lemma occurrences_filter (P : PackageSpec -> Prop) `{!forall x, Decision (P x)}
      (l : list PackageSpec) (spec : PackageSpec) :
  occurrences spec (filter P l) = if decide (P spec) then occurrences spec l else 0%nat.
Proof.
  unfold occurrences. induction l as [|x l IH]; simpl.
  - now destruct (decide (P spec)).
  - rewrite filter_cons. destruct (decide (P x)) as [Hx|Hx]; simpl;
      destruct (PackageSpec_eq_dec x spec) as [->|Hne]; rewrite IH;
      destruct (decide (P spec)); try reflexivity; contradiction.
Qed.

Lemma occurrences_sort (l : list PackageSpec) (spec : PackageSpec) :
  occurrences spec (Util.sort l) = occurrences spec l.
Proof.
  unfold occurrences. apply Permutation_count_occ. apply Util.sort_Permutation.
Qed.

Lemma occurrences_app (l1 l2 : list PackageSpec) (spec : PackageSpec) :
  occurrences spec (l1 ++ l2) = (occurrences spec l1 + occurrences spec l2)%nat.
Proof. unfold occurrences. apply count_occ_app. Qed.

(** Every spec meets the condition of not_installed, or is installed
    and meets exactly one of the other three. *)
Lemma classification_cases db provider0 spec :
  (find_installed db spec = None /\
   ~ is_up_to_date db provider0 spec /\ ~ is_to_upgrade db provider0 spec)
  \/ (find_installed db spec <> None /\
      get_control_file provider0 (name spec) = None /\
      ~ is_up_to_date db provider0 spec /\ ~ is_to_upgrade db provider0 spec)
  \/ (find_installed db spec <> None /\
      get_control_file provider0 (name spec) <> None /\
      is_up_to_date db provider0 spec /\ ~ is_to_upgrade db provider0 spec)
  \/ (find_installed db spec <> None /\
      get_control_file provider0 (name spec) <> None /\
      ~ is_up_to_date db provider0 spec /\ is_to_upgrade db provider0 spec).
Proof.
  rewrite <- (installed_version_None db spec).
  rewrite <- (control_version_None provider0 spec).
  destruct (decide (is_not_installed db spec)) as [Hm|Hm].
  { left. split; [exact Hm|]. now apply not_installed_excludes. }
  right.
  destruct (decide (has_no_control_file provider0 spec)) as [Hr|Hr].
  { left. split; [exact Hm|]. split; [exact Hr|].
    now apply (no_control_file_excludes db). }
  right.
  destruct (decide (is_up_to_date db provider0 spec)) as [Hu|Hu].
  { left. split; [exact Hm|]. split; [exact Hr|]. split; [exact Hu|].
    now apply up_to_date_excludes. }
  right. split; [exact Hm|]. split; [exact Hr|]. split; [exact Hu|].
  assert (Hi : is_Some (installed_version db spec)).
  { unfold is_not_installed in Hm.
    destruct (installed_version db spec); [eauto | congruence]. }
  assert (Hc : is_Some (control_version provider0 spec)).
  { unfold has_no_control_file in Hr.
    destruct (control_version provider0 spec); [eauto | congruence]. }
  split; [exact Hi|]. split; [exact Hc|].
  intros Heq. apply Hu. split; [exact Hi | exact Heq].
Qed.

(** C10 (amended): the classifier handles every occurrence of a spec on
    its own and never removes duplicates.  Each occurrence is appended to
    every bucket whose condition the spec meets, which is both
    not_installed and no_recipe when it has neither an installed record
    nor a recipe; so a spec occurs in such a bucket as often as in the
    input, and in no other bucket.  The input is, as a multiset, the union
    of not_installed, the installed entries of no_recipe, to_upgrade and
    up_to_date.  The printed listing of a bucket holds one line per entry,
    and it is printed for the non-empty buckets among up_to_date,
    not_installed and no_recipe. *)
Theorem classifier_keeps_every_occurrence db provider0 specs0 w :
  exists b,
    classifier db provider0 specs0 w = Continue b w /\
    (forall spec,
        occurrences spec (not_installed b)
        = if decide (find_installed db spec = None)
          then occurrences spec specs0 else 0%nat) /\
    (forall spec,
        occurrences spec (no_control_file b)
        = if decide (get_control_file provider0 (name spec) = None)
          then occurrences spec specs0 else 0%nat) /\
    (forall spec,
        occurrences spec (up_to_date b)
        = if decide (is_up_to_date db provider0 spec)
          then occurrences spec specs0 else 0%nat) /\
    (forall spec,
        occurrences spec (to_upgrade b)
        = if decide (is_to_upgrade db provider0 spec)
          then occurrences spec specs0 else 0%nat) /\
    specs0 ≡ₚ not_installed b
              ++ filter (fun spec => find_installed db spec <> None) (no_control_file b)
              ++ to_upgrade b ++ up_to_date b /\
    (forall bucket,
        bucket_listing bucket
        = foldr (fun spec rest => spec_line spec +:+ rest) newline bucket) /\
    print_buckets b w = Continue tt (record w (classification_report b)).
Proof.
  exists (classified db provider0 specs0).
  split; [apply classifier_run|].
  assert (Hni : forall spec,
             occurrences spec (not_installed (classified db provider0 specs0))
             = if decide (find_installed db spec = None)
               then occurrences spec specs0 else 0%nat).
  { intros spec. unfold classified. simpl.
    rewrite occurrences_sort, occurrences_filter.
    destruct (decide (is_not_installed db spec)) as [H|H],
             (decide (find_installed db spec = None)) as [H'|H'];
      try reflexivity; exfalso; unfold is_not_installed in H;
      rewrite installed_version_None in H; contradiction. }
  assert (Hnc : forall spec,
             occurrences spec (no_control_file (classified db provider0 specs0))
             = if decide (get_control_file provider0 (name spec) = None)
               then occurrences spec specs0 else 0%nat).
  { intros spec. unfold classified. simpl.
    rewrite occurrences_sort, occurrences_filter.
    destruct (decide (has_no_control_file provider0 spec)) as [H|H],
             (decide (get_control_file provider0 (name spec) = None)) as [H'|H'];
      try reflexivity; exfalso; unfold has_no_control_file in H;
      rewrite control_version_None in H; contradiction. }
  assert (Hup : forall spec,
             occurrences spec (up_to_date (classified db provider0 specs0))
             = if decide (is_up_to_date db provider0 spec)
               then occurrences spec specs0 else 0%nat).
  { intros spec. unfold classified. simpl.
    now rewrite occurrences_sort, occurrences_filter. }
  assert (Htu : forall spec,
             occurrences spec (to_upgrade (classified db provider0 specs0))
             = if decide (is_to_upgrade db provider0 spec)
               then occurrences spec specs0 else 0%nat).
  { intros spec. unfold classified. simpl.
    now rewrite occurrences_sort, occurrences_filter. }
  repeat split; try assumption.
  - apply (Permutation_count_occ PackageSpec_eq_dec). intros spec.
    fold (occurrences spec specs0).
    match goal with |- _ = count_occ _ ?l _ => fold (occurrences spec l) end.
    rewrite !occurrences_app, occurrences_filter, Hni, Hnc, Hup, Htu.
    destruct (classification_cases db provider0 spec)
      as [(H1 & H2 & H3)|[(H1 & H2 & H3 & H4)|[(H1 & H2 & H3 & H4)|(H1 & H2 & H3 & H4)]]];
      repeat case_decide; first [lia | exfalso; tauto].
  - intros bucket. unfold bucket_listing.
    rewrite Strings.join_empty_delimiter.
    induction bucket as [|x bucket IH]; [reflexivity|].
    simpl. now rewrite Strings.app_assoc, IH.
  - apply print_buckets_run.
Qed.

(** ** The rest of the command: the wrapper and the remaining paths *)

(** [UpgradeCommand::perform_and_exit], source lines 241 to 247: the
    command object hands its arguments on unchanged. *)
Definition UpgradeCommand_perform_and_exit
           (args : VcpkgCmdArguments) (paths : VcpkgPaths)
           (default_triplet host_triplet : Triplet) : Cmd Empty_set :=
  perform_and_exit args paths default_triplet host_triplet.

Lemma present_and_execute_empty_plan args paths host_triplet s plan w :
  ActionPlan_empty plan = true ->
  present_and_execute args paths host_triplet s plan w = Exited EXIT_FAILURE w.
Proof.
  intros He. unfold present_and_execute. rewrite He.
  apply bind_exited. reflexivity.
Qed.

Lemma Install_perform_aborted args plan keep_going0 paths w db' :
  install_perform env args plan keep_going0 paths (status_db w) = Aborted db' ->
  Install_perform args plan keep_going0 paths w
  = Exited EXIT_FAILURE (mkWorld db' (trace w ++ [EvInstallPerform plan keep_going0])).
Proof.
  intros H. unfold Install_perform, mbind, Cmd_bind, cmd_bind. simpl.
  rewrite H. reflexivity.
Qed.

Lemma present_and_execute_aborted args paths host_triplet s plan w db' :
  ActionPlan_empty plan = false ->
  no_dry_run s = true ->
  install_perform env args (set_build_options plan) (keep_going s) paths (status_db w)
  = Aborted db' ->
  present_and_execute args paths host_triplet s plan w
  = Exited EXIT_FAILURE
      (mkWorld db'
         (trace w
          ++ warning_events plan
          ++ [EvPrintPlan (set_build_options plan) true (builtin_ports_directory paths);
              EvLoadTagVars (set_build_options plan) host_triplet;
              EvInstallPerform (set_build_options plan) (keep_going s)])).
Proof.
  intros He Hd Hp. unfold present_and_execute. rewrite He, Hd.
  erewrite bind_continue by reflexivity.
  erewrite bind_continue by apply for_each_print_run.
  erewrite bind_continue by apply emit_run.
  erewrite bind_continue by reflexivity.
  erewrite bind_continue by apply emit_run.
  erewrite bind_exited; [reflexivity|].
  rewrite (Install_perform_aborted _ _ _ _ _ db') by exact Hp.
  unfold warning_events, record. simpl.
  rewrite <- !app_assoc. reflexivity.
Qed.

(** The switches as [startup] reads them into the session. *)
Lemma startup_switches args paths default_triplet w s w' options :
  startup args paths default_triplet w = Continue s w' ->
  parse_arguments env args COMMAND_STRUCTURE = Some options ->
  manifest_mode_enabled paths = false /\
  ~ (OPTION_KEEP_GOING ∈ switches options /\ OPTION_NO_KEEP_GOING ∈ switches options) /\
  unsupported_port_action s
  = (if bool_decide (OPTION_ALLOW_UNSUPPORTED_PORT ∈ switches options)
     then Warn else Error) /\
  provider s = PathsPortFileProvider env paths (overlay_ports args).
Proof.
  unfold startup. intros H Hopt.
  destruct (manifest_mode_enabled paths); [discriminate|].
  simpl in H. rewrite bind_ret in H. rewrite Hopt in H.
  simpl in H. rewrite bind_ret in H.
  unfold determine_keep_going in H.
  destruct (bool_decide (OPTION_KEEP_GOING ∈ switches options)) eqn:Hk,
           (bool_decide (OPTION_NO_KEEP_GOING ∈ switches options)) eqn:Hn;
    simpl in H;
    unfold database_load_check, get_status_db, Input_check_and_get_package_spec in H;
    unfold mbind, Cmd_bind, cmd_bind in H; simpl in H; try discriminate;
    rewrite fmap_cmd_value_or_exit in H;
    (destruct (mapM _ (command_arguments args)) as [ys|]; [|discriminate]);
    injection H as <- <-; simpl;
    (split; [reflexivity|]); (split; [|split; reflexivity]);
    intros [Hk' Hn'];
    first [ apply bool_decide_eq_false_1 in Hk; contradiction
          | apply bool_decide_eq_false_1 in Hn; contradiction ].
Qed.

(** X1: in manifest mode the command is rejected at once, whatever the
    arguments and switches are: the run prints the manifest-mode error in
    the error colour, emits nothing but advisory output (no scan, no
    planner call, no plan, no execution), leaves the status database alone
    and exits nonzero. *)
Theorem manifest_mode_is_rejected args paths default_triplet host_triplet w :
  manifest_mode_enabled paths = true ->
  exists evs,
    perform_and_exit args paths default_triplet host_triplet w
    = Exited EXIT_FAILURE (record w evs) /\
    EXIT_FAILURE <> 0 /\
    EvPrint (Some Color_error) (manifest_mode_message +:+ newline) ∈ evs /\
    Forall (fun e => match e with
                     | EvPrint _ _ | EvUpgradeMessage => True
                     | _ => False
                     end) evs.
Proof.
  intros Hm.
  exists [EvPrint (Some Color_error) (manifest_mode_message +:+ newline);
          EvUpgradeMessage].
  split; [|split; [discriminate|split]].
  - unfold perform_and_exit, startup. rewrite Hm.
    apply bind_exited, bind_exited. simpl.
    unfold Checks_exit_maybe_upgrade, mbind, Cmd_bind, cmd_bind, print2, emit,
      Checks_exit_fail, exit_process, record.
    simpl. now rewrite <- app_assoc.
  - apply list_elem_of_here.
  - repeat constructor.
Qed.

(** X2: when both [--keep-going] and [--no-keep-going] are among the
    parsed switches, the run ends with the conflict message alone and a
    nonzero exit.  The check comes before the input sanitization and before
    the classification, so this holds whatever the spec arguments are, and
    also with [--no-dry-run]. *)
Theorem keep_going_conflict_stops_the_run
        args paths default_triplet host_triplet w options :
  manifest_mode_enabled paths = false ->
  parse_arguments env args COMMAND_STRUCTURE = Some options ->
  OPTION_KEEP_GOING ∈ switches options ->
  OPTION_NO_KEEP_GOING ∈ switches options ->
  perform_and_exit args paths default_triplet host_triplet w
  = Exited EXIT_FAILURE
           (record w [EvPrintMessage
                        (Some Color_error)
                        (msgBothYesAndNoOptionSpecifiedError "keep-going")]).
Proof.
  intros Hm Hopt Hk Hn.
  unfold perform_and_exit, startup. rewrite Hm, Hopt.
  apply bind_exited. simpl. rewrite !bind_ret.
  apply bind_exited.
  rewrite (bool_decide_eq_true_2 _ Hk), (bool_decide_eq_true_2 _ Hn).
  reflexivity.
Qed.

(** X3: an empty plan from the planner is fatal: the run exits nonzero
    right after the planner call, printing neither the warnings nor the
    plan and executing nothing, with or without [--no-dry-run]. *)
Theorem empty_plan_is_fatal
        args paths default_triplet host_triplet w s w0 plan w1 :
  startup args paths default_triplet w = Continue s w0 ->
  choose_plan s host_triplet w = Continue plan w1 ->
  ActionPlan_empty plan = true ->
  perform_and_exit args paths default_triplet host_triplet w
  = Exited EXIT_FAILURE w1 /\
  status_db w1 = status_db w /\
  exists evs, trace w1 = trace w ++ evs /\ Forall planning_event evs.
Proof.
  intros Hs Hp He.
  destruct (perform_and_exit_planned _ _ _ host_triplet _ _ _ _ _ Hs Hp)
    as (Hrun & Hdb & Hevs).
  split; [|split; assumption].
  rewrite Hrun. now apply present_and_execute_empty_plan.
Qed.

Lemma present_and_execute_dry_reads args paths host_triplet s plan w :
  no_dry_run s = false ->
  reads_only no_execution w
             (world_of (present_and_execute args paths host_triplet s plan w)).
Proof.
  intros Hd. destruct (ActionPlan_empty plan) eqn:He.
  - rewrite present_and_execute_empty_plan by exact He. simpl. reflexivity.
  - rewrite present_and_execute_dry_run by assumption. simpl.
    split; [reflexivity|].
    eexists. split; [reflexivity|].
    apply Forall_app. split; [|repeat constructor].
    unfold warning_events. apply Forall_map, Forall_true. intros x. exact I.
Qed.

(** X4: without [--no-dry-run] nothing is ever executed, on any path of
    the command: whatever the arguments, the state of the installation and
    the answers of the collaborators, the run loads no tag variables, does
    not call the installer, prints no install summary and leaves the status
    database as it was. *)
Theorem nothing_is_executed_without_no_dry_run
        args paths default_triplet host_triplet w :
  (forall options,
      parse_arguments env args COMMAND_STRUCTURE = Some options ->
      OPTION_NO_DRY_RUN ∉ switches options) ->
  exists code w' evs,
    perform_and_exit args paths default_triplet host_triplet w = Exited code w' /\
    status_db w' = status_db w /\
    trace w' = trace w ++ evs /\
    Forall no_execution evs.
Proof.
  intros Hdry.
  assert (H : reads_only no_execution w
                (world_of (perform_and_exit args paths default_triplet host_triplet w))).
  { unfold perform_and_exit.
    pose proof (startup_reads no_execution planning_no_execution
                              args paths default_triplet w) as Hst.
    destruct (startup args paths default_triplet w) as [s w0|code w0] eqn:Hs.
    - destruct (startup_inv _ _ _ _ _ _ Hs) as (-> & _ & _ & options & Hopt & Hd & _).
      rewrite (bool_decide_eq_false_2 _ (Hdry _ Hopt)) in Hd.
      rewrite (bind_continue _ _ _ _ _ Hs).
      pose proof (choose_plan_reads no_execution planning_no_execution
                                    s host_triplet w) as Hch.
      destruct (choose_plan s host_triplet w) as [plan w1|code w1] eqn:Hp.
      + rewrite (bind_continue _ _ _ _ _ Hp).
        etrans; [exact Hch|]. now apply present_and_execute_dry_reads.
      + now rewrite (bind_exited _ _ _ _ _ Hp).
    - now rewrite (bind_exited _ _ _ _ _ Hs). }
  destruct (perform_and_exit_exits args paths default_triplet host_triplet w)
    as (code & w' & Hrun).
  rewrite Hrun in H. destruct H as (Hdb & evs & Htr & Hall).
  exists code, w', evs. auto.
Qed.

Lemma classified_partition db provider0 specs0 :
  let b := classified db provider0 specs0 in
  specs0 ≡ₚ not_installed b
            ++ filter (fun spec => find_installed db spec <> None) (no_control_file b)
            ++ to_upgrade b ++ up_to_date b.
Proof.
  intros b. apply (Permutation_count_occ PackageSpec_eq_dec). intros spec.
  fold (occurrences spec specs0).
  match goal with |- _ = count_occ _ ?l _ => fold (occurrences spec l) end.
  rewrite !occurrences_app, occurrences_filter.
  unfold b, classified. simpl.
  rewrite !occurrences_sort, !occurrences_filter.
  pose proof (installed_version_None db spec) as Hi.
  pose proof (control_version_None provider0 spec) as Hc.
  fold (is_not_installed db spec) in Hi.
  fold (has_no_control_file provider0 spec) in Hc.
  destruct (classification_cases db provider0 spec)
    as [(H1 & H2 & H3)|[(H1 & H2 & H3 & H4)|[(H1 & H2 & H3 & H4)|(H1 & H2 & H3 & H4)]]];
    repeat case_decide; first [lia | exfalso; tauto].
Qed.

(** X6: with no spec on the command line and at least one outdated
    package, the planner is called once, with the specs of the scan in the
    order of the scan (they are neither classified nor sorted), and no
    bucket summary is printed. *)
Theorem sweep_plans_for_the_scanned_packages
        args paths default_triplet host_triplet w s w0 plan w1 :
  startup args paths default_triplet w = Continue s w0 ->
  command_arguments args = [] ->
  choose_plan s host_triplet w = Continue plan w1 ->
  let outdated_packages :=
    find_outdated_packages env (provider s) (local_status_db s) in
  let options :=
    mkCreateInstallPlanOptions host_triplet (unsupported_port_action s) in
  outdated_packages <> [] /\
  create_upgrade_plan env (provider s) (map op_spec outdated_packages)
                      (local_status_db s) options = Some plan /\
  w1 = record w [EvFindOutdatedPackages;
                 EvCreateUpgradePlan (map op_spec outdated_packages) options].
Proof.
  intros Hs Hargs Hp outdated_packages options.
  pose proof (startup_specs_nil _ _ _ _ _ _ Hs Hargs) as Hnil.
  unfold choose_plan in Hp. rewrite Hnil in Hp. simpl in Hp.
  rewrite plan_for_outdated_run in Hp. fold outdated_packages in Hp.
  destruct (is_empty outdated_packages) eqn:He; [discriminate|].
  rewrite create_upgrade_plan_run in Hp. fold options in Hp.
  destruct (create_upgrade_plan _ _ _ _ _) as [plan'|] eqn:Hc; [|discriminate].
  injection Hp as -> <-.
  apply is_empty_false in He.
  repeat split; try assumption.
  now rewrite record_record.
Qed.

(** Every exit of a command carries a code in [Q]. *)
Definition exits_with (Q : Z -> Prop) {A : Type} (m : Cmd A) : Prop :=
  forall w code w', m w = Exited code w' -> Q code.

Lemma exits_with_ret (Q : Z -> Prop) {A : Type} (a : A) : exits_with Q (mret a).
Proof. intros w code w' H. discriminate H. Qed.

Lemma exits_with_emit (Q : Z -> Prop) (e : Event) : exits_with Q (emit e).
Proof. intros w code w' H. discriminate H. Qed.

Lemma exits_with_exit (Q : Z -> Prop) {A : Type} (code : Z) :
  Q code -> exits_with Q (@exit_process A code).
Proof. intros HQ w code' w' [= <- _]. exact HQ. Qed.

Lemma exits_with_bind (Q : Z -> Prop) {A B : Type} (m : Cmd A) (f : A -> Cmd B) :
  exits_with Q m -> (forall a, exits_with Q (f a)) -> exits_with Q (m ≫= f).
Proof.
  intros Hm Hf w code w'. unfold mbind, Cmd_bind, cmd_bind.
  destruct (m w) as [a w1|code1 w1] eqn:E.
  - apply Hf.
  - intros [= <- _]. apply (Hm _ _ _ E).
Qed.

Lemma exits_with_value_or_exit (Q : Z -> Prop) {A : Type} (maybe : option A) :
  Q EXIT_FAILURE -> exits_with Q (value_or_exit maybe).
Proof.
  intros HQ. destruct maybe; [apply exits_with_ret | now apply exits_with_exit].
Qed.

Lemma exits_with_fmap_cmd (Q : Z -> Prop) {A B : Type} (l : list A) (f : A -> Cmd B) :
  (forall x, exits_with Q (f x)) -> exits_with Q (fmap_cmd l f).
Proof.
  intros Hf. induction l as [|x l IH]; simpl; [apply exits_with_ret|].
  apply exits_with_bind; [apply Hf | intros y].
  apply exits_with_bind; [exact IH | intros ys; apply exits_with_ret].
Qed.

Lemma startup_exits_with_failure args paths default_triplet :
  exits_with (fun code => code = EXIT_FAILURE) (startup args paths default_triplet).
Proof.
  unfold startup.
  apply exits_with_bind; [|intros ?].
  { destruct (manifest_mode_enabled paths); [|apply exits_with_ret]. simpl.
    unfold Checks_exit_maybe_upgrade.
    apply exits_with_bind; [apply exits_with_emit|intros ?].
    apply exits_with_bind; [apply exits_with_emit|intros ?].
    now apply exits_with_exit. }
  apply exits_with_bind; [now apply exits_with_value_or_exit|intros options].
  apply exits_with_bind; [|intros kg].
  { unfold determine_keep_going, Checks_check_exit_msg.
    apply exits_with_bind; [|intros ?].
    - destruct (negb _); [apply exits_with_ret|].
      apply exits_with_bind; [apply exits_with_emit|intros ?].
      now apply exits_with_exit.
    - destruct (bool_decide _); [apply exits_with_ret|].
      destruct (bool_decide _); apply exits_with_ret. }
  apply exits_with_bind; [intros w code w' H; discriminate H|intros db].
  apply exits_with_bind; [|intros specs0; apply exits_with_ret].
  apply exits_with_fmap_cmd. intros arg. now apply exits_with_value_or_exit.
Qed.

Lemma choose_plan_success_exit s host_triplet w w' :
  choose_plan s host_triplet w = Exited EXIT_SUCCESS w' ->
  status_db w' = status_db w /\
  ((specs s = [] /\
    find_outdated_packages env (provider s) (local_status_db s) = [])
   \/ (specs s <> [] /\
       forall spec, spec ∈ specs s ->
                    is_up_to_date (local_status_db s) (provider s) spec)).
Proof.
  unfold choose_plan. destruct (is_empty (specs s)) eqn:He.
  - apply is_empty_true in He.
    rewrite plan_for_outdated_run.
    destruct (is_empty (find_outdated_packages _ _ _)) eqn:Ho.
    + intros [= <-]. apply is_empty_true in Ho. split; [reflexivity|]. now left.
    + rewrite create_upgrade_plan_run.
      destruct (create_upgrade_plan _ _ _ _ _); intros H; discriminate H.
  - apply is_empty_false in He.
    rewrite plan_for_specs_run.
    set (db := local_status_db s). set (pr := provider s).
    destruct (is_empty (not_installed (classified db pr (specs s)))) eqn:H1;
      [|intros H; discriminate H].
    destruct (is_empty (no_control_file (classified db pr (specs s)))) eqn:H2;
      [|intros H; discriminate H].
    cbn [andb].
    destruct (is_empty (to_upgrade (classified db pr (specs s)))) eqn:H3.
    + intros [= <-]. split; [reflexivity|]. right. split; [exact He|].
      intros spec Hin.
      apply is_empty_true in H1, H2, H3.
      destruct (classification_cases db pr spec)
        as [(F1 & _)|[(_ & F2 & _)|[(_ & _ & F3 & _)|(_ & _ & _ & F4)]]].
      * assert (Hx : spec ∈ not_installed (classified db pr (specs s)))
          by (apply elem_of_not_installed; auto).
        rewrite H1 in Hx. inversion Hx.
      * assert (Hx : spec ∈ no_control_file (classified db pr (specs s)))
          by (apply elem_of_no_control_file; auto).
        rewrite H2 in Hx. inversion Hx.
      * exact F3.
      * assert (Hx : spec ∈ to_upgrade (classified db pr (specs s)))
          by (apply elem_of_to_upgrade; auto).
        rewrite H3 in Hx. inversion Hx.
    + rewrite create_upgrade_plan_run.
      destruct (create_upgrade_plan _ _ _ _ _); intros H; discriminate H.
Qed.

Lemma present_and_execute_success_exit args paths host_triplet s plan w w' :
  present_and_execute args paths host_triplet s plan w = Exited EXIT_SUCCESS w' ->
  ActionPlan_empty plan = false /\
  no_dry_run s = true /\
  exists summary,
    install_perform env args (set_build_options plan) (keep_going s) paths (status_db w)
    = Returned summary (status_db w').
Proof.
  destruct (ActionPlan_empty plan) eqn:He.
  { rewrite present_and_execute_empty_plan by exact He. intros H; discriminate H. }
  destruct (no_dry_run s) eqn:Hd.
  2:{ rewrite present_and_execute_dry_run by assumption. intros H; discriminate H. }
  destruct (install_perform env args (set_build_options plan) (keep_going s) paths
                            (status_db w)) as [summary db'|db'] eqn:Hp.
  - rewrite (present_and_execute_committed _ _ _ _ _ _ _ _ He Hd Hp).
    intros [= <-]. simpl. eauto.
  - rewrite (present_and_execute_aborted _ _ _ _ _ _ _ He Hd Hp).
    intros H; discriminate H.
Qed.

(** X7: the command exits with success in three situations only: no spec
    was given and no installed package is outdated; specs were given and
    every one of them is up to date; or [--no-dry-run] was given, the
    planner returned a non-empty plan and the installer returned.  In the
    first two the status database is untouched.  A failed argument check, a
    classification error, a planner abort, an empty plan, a dry run with a
    plan and an installer abort never exit with success. *)
Theorem success_means_nothing_to_do_or_upgrade_done
        args paths default_triplet host_triplet w w' :
  perform_and_exit args paths default_triplet host_triplet w = Exited EXIT_SUCCESS w' ->
  exists s,
    startup args paths default_triplet w = Continue s w /\
    ((specs s = [] /\
      find_outdated_packages env (provider s) (local_status_db s) = [] /\
      status_db w' = status_db w)
     \/ (specs s <> [] /\
         (forall spec, spec ∈ specs s ->
                       is_up_to_date (local_status_db s) (provider s) spec) /\
         status_db w' = status_db w)
     \/ (no_dry_run s = true /\
         exists plan w1 summary,
           choose_plan s host_triplet w = Continue plan w1 /\
           ActionPlan_empty plan = false /\
           install_perform env args (set_build_options plan) (keep_going s) paths
                           (status_db w1)
           = Returned summary (status_db w'))).
Proof.
  unfold perform_and_exit. intros Hrun.
  destruct (startup args paths default_triplet w) as [s w0|code w0] eqn:Hs.
  2:{ rewrite (bind_exited _ _ _ _ _ Hs) in Hrun. injection Hrun as Hc _.
      pose proof (startup_exits_with_failure _ _ _ _ _ _ Hs) as Hf.
      simpl in Hf. rewrite Hf in Hc. discriminate Hc. }
  destruct (startup_inv _ _ _ _ _ _ Hs) as (-> & _).
  rewrite (bind_continue _ _ _ _ _ Hs) in Hrun.
  exists s. split; [reflexivity|].
  destruct (choose_plan s host_triplet w) as [plan w1|code w1] eqn:Hp.
  - rewrite (bind_continue _ _ _ _ _ Hp) in Hrun.
    apply present_and_execute_success_exit in Hrun as (He & Hd & summary & Hi).
    right. right. split; [exact Hd|]. exists plan, w1, summary. auto.
  - rewrite (bind_exited _ _ _ _ _ Hp) in Hrun. injection Hrun as -> ->.
    apply choose_plan_success_exit in Hp as (Hdb & [[H1 H2]|[H1 H2]]).
    + left. auto.
    + right. left. auto.
Qed.

(** The output that may follow the installer call. *)
Definition report_event (e : Event) : Prop :=
  match e with
  | EvPrint _ _ | EvSummaryPrint _ => True
  | _ => False
  end.

Lemma warning_events_planning plan : Forall planning_event (warning_events plan).
Proof. unfold warning_events. apply Forall_map, Forall_true. intros x. exact I. Qed.

(** What [present_and_execute] adds to the trace: either nothing that
    executes, or the warnings, the plan, the tag variables and the
    installer call in a row, followed by reports only. *)
Lemma present_and_execute_shape args paths host_triplet s plan w :
  exists code w' post,
    present_and_execute args paths host_triplet s plan w = Exited code w' /\
    trace w' = trace w ++ post /\
    (Forall no_execution post
     \/ exists tail,
         post = warning_events plan
                ++ [EvPrintPlan (set_build_options plan) true
                                (builtin_ports_directory paths);
                    EvLoadTagVars (set_build_options plan) host_triplet;
                    EvInstallPerform (set_build_options plan) (keep_going s)]
                ++ tail /\
         Forall report_event tail).
Proof.
  destruct (no_dry_run s) eqn:Hd.
  2:{ pose proof (present_and_execute_dry_reads args paths host_triplet s plan w Hd) as H.
      destruct (present_and_execute args paths host_triplet s plan w)
        as [[]|code w'] eqn:E.
      destruct H as (_ & post & Htr & Hall). exists code, w', post. auto. }
  destruct (ActionPlan_empty plan) eqn:He.
  { rewrite present_and_execute_empty_plan by exact He.
    exists EXIT_FAILURE, w, []. rewrite app_nil_r. repeat split. left. constructor. }
  destruct (install_perform env args (set_build_options plan) (keep_going s) paths
                            (status_db w)) as [summary db'|db'] eqn:Hp.
  - rewrite (present_and_execute_committed _ _ _ _ _ _ _ _ He Hd Hp).
    eexists _, _, _. split; [reflexivity|]. split; [reflexivity|].
    right. exists (EvPrint None elapsed_time_message :: summary_events (keep_going s) summary).
    split; [reflexivity|].
    constructor; [exact I|]. destruct (keep_going s); repeat constructor.
  - rewrite (present_and_execute_aborted _ _ _ _ _ _ _ He Hd Hp).
    eexists _, _, _. split; [reflexivity|]. split; [reflexivity|].
    right. exists []. split; [reflexivity | constructor].
Qed.

(** X8: the installer only ever runs the plan that was shown.  If a run
    calls the installer on a plan, then that very plan was printed and its
    tag variables were loaded immediately before the call; before that the
    run only planned and printed (no other plan was printed, nothing was
    executed), and after the call it only reports.  So the installer is
    called at most once per run, on the plan with the default build
    options. *)
Theorem installer_runs_the_presented_plan
        args paths default_triplet host_triplet w code w' evs plan kg :
  perform_and_exit args paths default_triplet host_triplet w = Exited code w' ->
  trace w' = trace w ++ evs ->
  EvInstallPerform plan kg ∈ evs ->
  exists before after,
    evs = before
          ++ [EvPrintPlan plan true (builtin_ports_directory paths);
              EvLoadTagVars plan host_triplet;
              EvInstallPerform plan kg]
          ++ after /\
    Forall planning_event before /\
    Forall report_event after /\
    uniform_build_options plan.
Proof.
  unfold perform_and_exit. intros Hrun Htr Hin.
  pose proof (startup_reads planning_event (fun e H => H)
                            args paths default_triplet w) as Hst.
  destruct (startup args paths default_triplet w) as [s w0|code0 w0] eqn:Hs.
  2:{ rewrite (bind_exited _ _ _ _ _ Hs) in Hrun. injection Hrun as _ <-.
      simpl in Hst. destruct Hst as (_ & evs0 & Htr0 & Hall).
      rewrite Htr0 in Htr. apply app_inv_head in Htr. subst evs0.
      rewrite Forall_forall in Hall. destruct (Hall _ Hin). }
  destruct (startup_inv _ _ _ _ _ _ Hs) as (-> & _).
  rewrite (bind_continue _ _ _ _ _ Hs) in Hrun.
  pose proof (choose_plan_reads planning_event (fun e H => H) s host_triplet w) as Hch.
  destruct (choose_plan s host_triplet w) as [plan0 w1|code1 w1] eqn:Hp.
  2:{ rewrite (bind_exited _ _ _ _ _ Hp) in Hrun. injection Hrun as _ <-.
      simpl in Hch. destruct Hch as (_ & evs1 & Htr1 & Hall).
      rewrite Htr1 in Htr. apply app_inv_head in Htr. subst evs1.
      rewrite Forall_forall in Hall. destruct (Hall _ Hin). }
  rewrite (bind_continue _ _ _ _ _ Hp) in Hrun.
  simpl in Hch. destruct Hch as (_ & evs1 & Htr1 & Hall1).
  destruct (present_and_execute_shape args paths host_triplet s plan0 w1)
    as (code2 & w2 & post & Hrun2 & Htr2 & Hshape).
  rewrite Hrun2 in Hrun. injection Hrun as _ <-.
  rewrite Htr1, <- app_assoc in Htr2. rewrite Htr2 in Htr.
  apply app_inv_head in Htr. subst evs.
  destruct Hshape as [Hno|(tail & -> & Htail)].
  { exfalso. apply elem_of_app in Hin as [Hin|Hin].
    - rewrite Forall_forall in Hall1. destruct (Hall1 _ Hin).
    - rewrite Forall_forall in Hno. destruct (Hno _ Hin). }
  assert (Hthis : EvInstallPerform plan kg
                  = EvInstallPerform (set_build_options plan0) (keep_going s)).
  { apply elem_of_app in Hin as [Hin|Hin].
    { rewrite Forall_forall in Hall1. destruct (Hall1 _ Hin). }
    apply elem_of_app in Hin as [Hin|Hin].
    { pose proof (warning_events_planning plan0) as Hw.
      rewrite Forall_forall in Hw. destruct (Hw _ Hin). }
    apply elem_of_app in Hin as [Hin|Hin].
    - rewrite !elem_of_cons in Hin.
      destruct Hin as [H|[H|[H|H]]]; try discriminate H; [exact H | inversion H].
    - rewrite Forall_forall in Htail. destruct (Htail _ Hin). }
  injection Hthis as -> ->.
  exists (evs1 ++ warning_events plan0), tail.
  split; [now rewrite <- !app_assoc|].
  split; [apply Forall_app; split; [exact Hall1 | apply warning_events_planning]|].
  split; [exact Htail | apply set_build_options_uniform].
Qed.

(** X9: a plan that reaches the presenter was made by exactly one planner
    call, the last event of the planning phase, and that call saw the
    command's context: the port provider built from the paths and the
    overlay ports, the status database as loaded, the host triplet, and
    [Warn] for unsupported ports exactly when [--allow-unsupported] was
    given ([Error] otherwise). *)
Theorem planner_sees_the_parsed_context
        args paths default_triplet host_triplet w s w0 options plan w1 :
  startup args paths default_triplet w = Continue s w0 ->
  parse_arguments env args COMMAND_STRUCTURE = Some options ->
  choose_plan s host_triplet w = Continue plan w1 ->
  let planner_options :=
    mkCreateInstallPlanOptions
      host_triplet
      (if bool_decide (OPTION_ALLOW_UNSUPPORTED_PORT ∈ switches options)
       then Warn else Error) in
  exists specs0 evs,
    create_upgrade_plan env (PathsPortFileProvider env paths (overlay_ports args))
                        specs0 (status_db w) planner_options = Some plan /\
    trace w1 = trace w ++ evs ++ [EvCreateUpgradePlan specs0 planner_options] /\
    Forall (fun e => match e with
                     | EvPrint _ _ | EvFindOutdatedPackages => True
                     | _ => False
                     end) evs.
Proof.
  intros Hs Hopt Hp planner_options.
  destruct (startup_switches _ _ _ _ _ _ _ Hs Hopt) as (_ & _ & Hu & Hpr).
  destruct (startup_inv _ _ _ _ _ _ Hs) as (_ & Hdb & _).
  unfold planner_options. rewrite <- Hu, <- Hpr, <- Hdb.
  unfold choose_plan in Hp. destruct (is_empty (specs s)).
  - rewrite plan_for_outdated_run in Hp.
    destruct (is_empty (find_outdated_packages _ _ _)); [discriminate|].
    rewrite create_upgrade_plan_run in Hp.
    destruct (create_upgrade_plan _ _ _ _ _) as [plan'|] eqn:Hc; [|discriminate].
    injection Hp as -> <-.
    eexists _, [EvFindOutdatedPackages].
    split; [exact Hc|]. split; [|repeat constructor].
    simpl. now rewrite <- app_assoc.
  - rewrite plan_for_specs_run in Hp.
    destruct (_ && _); [|discriminate].
    destruct (is_empty (to_upgrade _)); [discriminate|].
    rewrite create_upgrade_plan_run in Hp.
    destruct (create_upgrade_plan _ _ _ _ _) as [plan'|] eqn:Hc; [|discriminate].
    injection Hp as -> <-.
    eexists _, (classification_report _).
    split; [exact Hc|]. split.
    + simpl. now rewrite <- app_assoc.
    + eapply Forall_impl; [apply classification_report_prints|].
      intros e (color & message & ->). exact I.
Qed.

Lemma length_filter_all {A : Type} (P : A -> Prop) `{!forall x, Decision (P x)}
      (l : list A) :
  length (filter P l) = length l <-> Forall P l.
Proof.
  induction l as [|x l IH].
  - split; [constructor | reflexivity].
  - rewrite filter_cons. destruct (decide (P x)) as [Hx|Hx]; simpl.
    + rewrite Forall_cons. split.
      * intros [= E]. split; [exact Hx | now apply IH].
      * intros [_ E]. f_equal. now apply IH.
    + pose proof (length_filter P l) as Hle. split; [lia|].
      intros E. apply Forall_cons in E as [E _]. contradiction.
Qed.

(** X10: the four buckets hold at least as many entries as there are
    requested specs, and exactly as many when no requested spec is at once
    not installed and without a recipe; no bucket holds more entries than
    there are requested specs. *)
Theorem bucket_sizes db provider0 specs0 w :
  exists b,
    classifier db provider0 specs0 w = Continue b w /\
    (length specs0
     <= length (not_installed b) + length (no_control_file b)
        + length (to_upgrade b) + length (up_to_date b))%nat /\
    ((length specs0
      = length (not_installed b) + length (no_control_file b)
        + length (to_upgrade b) + length (up_to_date b))%nat
     <-> forall spec, spec ∈ specs0 ->
                      ~ (find_installed db spec = None /\
                         get_control_file provider0 (name spec) = None)) /\
    (length (not_installed b) <= length specs0)%nat /\
    (length (no_control_file b) <= length specs0)%nat /\
    (length (to_upgrade b) <= length specs0)%nat /\
    (length (up_to_date b) <= length specs0)%nat.
Proof.
  exists (classified db provider0 specs0).
  split; [apply classifier_run|].
  pose proof (classified_partition db provider0 specs0) as Hperm. cbv zeta in Hperm.
  apply Permutation_length in Hperm. rewrite !length_app in Hperm.
  set (b := classified db provider0 specs0) in *.
  pose proof (length_filter (fun spec => find_installed db spec <> None)
                            (no_control_file b)) as Hle.
  pose proof (length_filter_all (fun spec => find_installed db spec <> None)
                                (no_control_file b)) as Hall.
  assert (Hnc : (length (no_control_file b) <= length specs0)%nat).
  { unfold b, classified. simpl.
    rewrite (Permutation_length (Util.sort_Permutation _)). apply length_filter. }
  split; [lia|]. split; [|lia].
  split.
  - intros Heq spec Hin [Hi Hc].
    assert (Hf : Forall (fun spec => find_installed db spec <> None) (no_control_file b))
      by (apply Hall; lia).
    rewrite Forall_forall in Hf. apply (Hf spec); [|exact Hi].
    apply elem_of_no_control_file. auto.
  - intros Hnone.
    assert (Hf : Forall (fun spec => find_installed db spec <> None) (no_control_file b)).
    { apply Forall_forall. intros spec Hin Hi.
      apply elem_of_no_control_file in Hin as [Hin Hc]. apply (Hnone spec); auto. }
    apply Hall in Hf. lia.
Qed.

(** X11: the buckets hold the requested specs and nothing else; a spec of
    up_to_date or of to_upgrade is in no other bucket, and a spec of
    not_installed is in no_recipe exactly when its port has no recipe: the
    two error buckets are the only ones that can share a spec. *)
Theorem buckets_cover_the_input_and_overlap_only_on_errors db provider0 specs0 w :
  exists b,
    classifier db provider0 specs0 w = Continue b w /\
    (forall spec,
        spec ∈ specs0
        <-> spec ∈ not_installed b \/ spec ∈ no_control_file b \/
            spec ∈ to_upgrade b \/ spec ∈ up_to_date b) /\
    (forall spec,
        spec ∈ up_to_date b ->
        (spec ∉ not_installed b) /\ (spec ∉ no_control_file b) /\
        (spec ∉ to_upgrade b)) /\
    (forall spec,
        spec ∈ to_upgrade b ->
        (spec ∉ not_installed b) /\ (spec ∉ no_control_file b) /\
        (spec ∉ up_to_date b)) /\
    (forall spec,
        spec ∈ not_installed b ->
        (spec ∈ no_control_file b
         <-> get_control_file provider0 (name spec) = None)).
Proof.
  exists (classified db provider0 specs0).
  split; [apply classifier_run|].
  split; [|split; [|split]].
  - intros spec.
    rewrite elem_of_not_installed, elem_of_no_control_file,
      elem_of_to_upgrade, elem_of_up_to_date.
    split; [|tauto]. intros Hin.
    destruct (classification_cases db provider0 spec)
      as [(F1 & _)|[(_ & F2 & _)|[(_ & _ & F3 & _)|(_ & _ & _ & F4)]]]; tauto.
  - intros spec Hu. apply elem_of_up_to_date in Hu as [_ Hu].
    destruct (up_to_date_excludes _ _ _ Hu) as (N1 & N2 & N3).
    unfold is_not_installed in N1. unfold has_no_control_file in N2.
    rewrite installed_version_None in N1. rewrite control_version_None in N2.
    rewrite elem_of_not_installed, elem_of_no_control_file, elem_of_to_upgrade.
    tauto.
  - intros spec Hu. apply elem_of_to_upgrade in Hu as [_ Hu].
    destruct (to_upgrade_excludes _ _ _ Hu) as (N1 & N2 & N3).
    unfold is_not_installed in N1. unfold has_no_control_file in N2.
    rewrite installed_version_None in N1. rewrite control_version_None in N2.
    rewrite elem_of_not_installed, elem_of_no_control_file, elem_of_up_to_date.
    tauto.
  - intros spec Hn. apply elem_of_not_installed in Hn as [Hin _].
    rewrite elem_of_no_control_file. tauto.
Qed.

(** X12: the recipe is looked up by port name alone, the installed record
    by the whole spec: two requested specs of one port, whatever their
    triplets, are both in the no_recipe bucket or both out of it, while one
    can be installed and the other not. *)
Theorem recipe_lookup_ignores_the_triplet db provider0 specs0 spec1 spec2 w :
  spec1 ∈ specs0 ->
  spec2 ∈ specs0 ->
  name spec1 = name spec2 ->
  exists b,
    classifier db provider0 specs0 w = Continue b w /\
    (spec1 ∈ no_control_file b <-> spec2 ∈ no_control_file b) /\
    (spec1 ∈ not_installed b <-> find_installed db spec1 = None) /\
    (spec2 ∈ not_installed b <-> find_installed db spec2 = None).
Proof.
  intros H1 H2 Hname.
  exists (classified db provider0 specs0).
  split; [apply classifier_run|].
  rewrite !elem_of_no_control_file, !elem_of_not_installed, Hname. tauto.
Qed.

(** What [present_and_execute] can add to the trace, for any property
    that holds of prints, of summaries and of the three events that carry
    the plan with the build options set. *)
Lemma Install_perform_emits (Q : Event -> Prop) args plan kg paths :
  Q (EvInstallPerform plan kg) ->
  steps (grows_by Q) (Install_perform args plan kg paths).
Proof.
  intros HQ. unfold Install_perform.
  step_bind; [apply steps_emit_grows; exact HQ|].
  intros w. unfold mbind, Cmd_bind, cmd_bind. simpl.
  destruct (install_perform env args plan kg paths (status_db w)); simpl;
    exists []; (split; [now rewrite app_nil_r | constructor]).
Qed.

Lemma present_and_execute_emits (Q : Event -> Prop) args paths host_triplet s plan :
  (forall color message, Q (EvPrint color message)) ->
  Q (EvPrintPlan (set_build_options plan) true (builtin_ports_directory paths)) ->
  Q (EvLoadTagVars (set_build_options plan) host_triplet) ->
  Q (EvInstallPerform (set_build_options plan) (keep_going s)) ->
  (forall summary, Q (EvSummaryPrint summary)) ->
  steps (grows_by Q) (present_and_execute args paths host_triplet s plan).
Proof.
  intros Hprint Hplan Hload Hinstall Hsummary.
  unfold present_and_execute.
  step_bind; [step_done|].
  step_bind.
  { apply steps_for_each; [apply _|intros warning].
    apply steps_emit_grows. apply Hprint. }
  step_bind; [apply steps_emit_grows; exact Hplan|].
  step_bind.
  { apply steps_when; [apply _|].
    step_bind; [apply steps_emit_grows; apply Hprint | step_done]. }
  step_bind; [apply steps_emit_grows; exact Hload|].
  step_bind; [apply Install_perform_emits; exact Hinstall|].
  step_bind; [apply steps_emit_grows; apply Hprint|].
  step_bind; [|step_done].
  apply steps_when; [apply _|]. apply steps_emit_grows. apply Hsummary.
Qed.

(** C8: the plan builder changes the build options and nothing else: the
    plan keeps its remove actions, its warnings and its install actions,
    spec by spec and in order, and every install action then carries the
    system default build options, whatever the planner attached.  In every
    run, each plan that is printed, handed to the tag variable loader or to
    the installer is the plan the planner returned with the build options
    set in this way. *)
Theorem build_options_uniform_after_plan_builder
        args paths default_triplet host_triplet w :
  (forall plan,
      Forall (fun action => build_options action = default_build_package_options)
             (install_actions (set_build_options plan)) /\
      map ipa_spec (install_actions (set_build_options plan))
      = map ipa_spec (install_actions plan) /\
      remove_actions (set_build_options plan) = remove_actions plan /\
      warnings (set_build_options plan) = warnings plan) /\
  exists code w' evs,
    perform_and_exit args paths default_triplet host_triplet w = Exited code w' /\
    trace w' = trace w ++ evs /\
    Forall (fun e =>
              match e with
              | EvPrintPlan plan _ _ | EvLoadTagVars plan _ | EvInstallPerform plan _ =>
                  Forall (fun action =>
                            build_options action = default_build_package_options)
                         (install_actions plan) /\
                  exists s planned w1,
                    startup args paths default_triplet w = Continue s w /\
                    choose_plan s host_triplet w = Continue planned w1 /\
                    plan = set_build_options planned
              | _ => True
              end) evs.
Proof.
  split.
  { intros plan. split; [apply set_build_options_uniform|].
    unfold set_build_options. simpl. rewrite map_map. simpl. auto. }
  set (Q := fun e : Event =>
              match e with
              | EvPrintPlan plan _ _ | EvLoadTagVars plan _ | EvInstallPerform plan _ =>
                  Forall (fun action =>
                            build_options action = default_build_package_options)
                         (install_actions plan) /\
                  exists s planned w1,
                    startup args paths default_triplet w = Continue s w /\
                    choose_plan s host_triplet w = Continue planned w1 /\
                    plan = set_build_options planned
              | _ => True
              end).
  assert (HQ : forall e, planning_event e -> Q e) by (intros []; simpl; tauto).
  assert (H : grows_by Q w
                (world_of (perform_and_exit args paths default_triplet host_triplet w))).
  { unfold perform_and_exit.
    pose proof (startup_reads Q HQ args paths default_triplet w) as Hst.
    destruct (startup args paths default_triplet w) as [s w0|code w0] eqn:Hs.
    2:{ rewrite (bind_exited _ _ _ _ _ Hs). apply Hst. }
    destruct (startup_inv _ _ _ _ _ _ Hs) as (-> & _).
    rewrite (bind_continue _ _ _ _ _ Hs).
    pose proof (choose_plan_reads Q HQ s host_triplet w) as Hch.
    destruct (choose_plan s host_triplet w) as [planned w1|code w1] eqn:Hp.
    2:{ rewrite (bind_exited _ _ _ _ _ Hp). apply Hch. }
    rewrite (bind_continue _ _ _ _ _ Hp).
    etrans; [apply Hch|].
    assert (Hthis : Forall (fun action =>
                              build_options action = default_build_package_options)
                           (install_actions (set_build_options planned)) /\
                    exists s' planned' w1',
                      Continue s w = Continue s' w /\
                      choose_plan s' host_triplet w = Continue planned' w1' /\
                      set_build_options planned = set_build_options planned').
    { split; [apply set_build_options_uniform|]. exists s, planned, w1. auto. }
    apply present_and_execute_emits; simpl; auto. }
  destruct (perform_and_exit_exits args paths default_triplet host_triplet w)
    as (code & w' & Hrun).
  rewrite Hrun in H. destruct H as (evs & Htr & Hall).
  exists code, w', evs. auto.
Qed.

(** X5: in every run with user-supplied specs in which the planner is
    called, whether it then returns a plan or aborts: the not_installed and
    no_recipe buckets are empty, the planner is given exactly the to_upgrade
    bucket, which is not empty and sorted, with the host triplet and the
    unsupported-port action of the session; to_upgrade and up_to_date
    together hold every requested spec as often as it was given; the call
    directly follows the bucket summaries and is the only planner call of
    the run. *)
Theorem planner_is_given_the_outdated_specs
        args paths default_triplet host_triplet w s w0 code w' evs specs0 options :
  startup args paths default_triplet w = Continue s w0 ->
  specs s <> [] ->
  perform_and_exit args paths default_triplet host_triplet w = Exited code w' ->
  trace w' = trace w ++ evs ->
  EvCreateUpgradePlan specs0 options ∈ evs ->
  exists b rest,
    classifier (local_status_db s) (provider s) (specs s) w = Continue b w /\
    not_installed b = [] /\
    no_control_file b = [] /\
    to_upgrade b <> [] /\
    Sorted PackageSpecOps.le (to_upgrade b) /\
    specs s ≡ₚ to_upgrade b ++ up_to_date b /\
    specs0 = to_upgrade b /\
    options = mkCreateInstallPlanOptions host_triplet (unsupported_port_action s) /\
    evs = classification_report b ++ [EvCreateUpgradePlan specs0 options] ++ rest /\
    Forall (fun e => match e with
                     | EvCreateUpgradePlan _ _ => False
                     | _ => True
                     end) rest.
Proof.
  intros Hs Hne Hrun Htr Hin.
  set (b := classified (local_status_db s) (provider s) (specs s)).
  set (options0 := mkCreateInstallPlanOptions host_triplet (unsupported_port_action s)).
  pose proof (classified_partition (local_status_db s) (provider s) (specs s)) as Hperm.
  cbv zeta in Hperm. fold b in Hperm.
  assert (Hsorted : Sorted PackageSpecOps.le (to_upgrade b))
    by apply Util.sort_Sorted.
  pose proof (classifier_run (local_status_db s) (provider s) (specs s) w) as Hb.
  fold b in Hb.
  assert (Hreport : forall l o, EvCreateUpgradePlan l o ∉ classification_report b).
  { intros l o Hx. pose proof (classification_report_prints b) as Hall.
    rewrite Forall_forall in Hall.
    destruct (Hall _ Hx) as (color & message & Heq). discriminate Heq. }
  rewrite (perform_and_exit_specs _ _ _ _ _ _ _ Hs Hne) in Hrun.
  pose proof (plan_for_specs_run s host_triplet w) as Hplan. cbv zeta in Hplan.
  fold b options0 in Hplan. clearbody b.
  destruct (is_empty (not_installed b)) eqn:H1.
  2:{ rewrite (bind_exited _ _ _ _ _ Hplan) in Hrun. injection Hrun as _ <-.
      simpl in Htr. apply app_inv_head in Htr. subst evs.
      now apply Hreport in Hin. }
  destruct (is_empty (no_control_file b)) eqn:H2.
  2:{ rewrite (bind_exited _ _ _ _ _ Hplan) in Hrun. injection Hrun as _ <-.
      simpl in Htr. apply app_inv_head in Htr. subst evs.
      now apply Hreport in Hin. }
  cbn [andb] in Hplan.
  destruct (is_empty (to_upgrade b)) eqn:H3.
  { rewrite (bind_exited _ _ _ _ _ Hplan) in Hrun. injection Hrun as _ <-.
    simpl in Htr. apply app_inv_head in Htr. subst evs.
    now apply Hreport in Hin. }
  apply is_empty_true in H1, H2. apply is_empty_false in H3.
  rewrite H1, H2 in Hperm. simpl in Hperm.
  rewrite create_upgrade_plan_run in Hplan.
  assert (Hfound : forall rest,
             evs = classification_report b
                   ++ [EvCreateUpgradePlan (to_upgrade b) options0] ++ rest ->
             Forall (fun e => match e with
                              | EvCreateUpgradePlan _ _ => False
                              | _ => True
                              end) rest ->
             specs0 = to_upgrade b /\ options = options0).
  { intros rest -> Hrest.
    apply elem_of_app in Hin as [Hin|Hin]; [now apply Hreport in Hin|].
    apply elem_of_cons in Hin as [Hin|Hin]; [now injection Hin|].
    rewrite Forall_forall in Hrest. destruct (Hrest _ Hin). }
  destruct (create_upgrade_plan _ _ _ _ _) as [plan|] eqn:Hc.
  - rewrite (bind_continue _ _ _ _ _ Hplan) in Hrun.
    pose proof (present_and_execute_emits
                  (fun e => match e with
                            | EvCreateUpgradePlan _ _ => False
                            | _ => True
                            end)
                  args paths host_triplet s plan
                  (fun _ _ => I) I I I (fun _ => I)
                  (record (record w (classification_report b))
                          [EvCreateUpgradePlan (to_upgrade b) options0])) as Hpost.
    rewrite Hrun in Hpost. destruct Hpost as (rest & Htr' & Hrest).
    simpl in Htr'. rewrite Htr', <- !app_assoc in Htr.
    apply app_inv_head in Htr. subst evs.
    destruct (Hfound rest eq_refl Hrest) as [-> ->].
    exists b, rest. repeat split; auto.
  - rewrite (bind_exited _ _ _ _ _ Hplan) in Hrun. injection Hrun as _ <-.
    simpl in Htr. rewrite <- !app_assoc in Htr.
    apply app_inv_head in Htr. subst evs.
    destruct (Hfound [] eq_refl (Forall_nil_2 _)) as [-> ->].
    exists b, []. repeat split; auto.
Qed.

End Upgrade.

(** * The formatters of [vcpkg/base/format.h] *)

Module Format.

(** The outcome of a formatter's [parse]: the iterator it returns, or the
    [fmt::format_error] it throws. *)
Inductive parse_result : Type :=
| Returns (position : string)
| Throws (what : string).

(** A [fmt::format_parse_context] is the range from [ctx.begin()] to
    [ctx.end()] of the format string; the range and an iterator into it are
    kept as the characters from that position to the end. *)
Definition format_parse_context : Type := string.

Definition begin (ctx : format_parse_context) : string := ctx.

(** [basic_format_parse_impl], source lines 23 to 31. *)
Definition basic_format_parse_impl (ctx : format_parse_context) : parse_result :=
  match begin ctx with
  | String c _ =>
      if negb (Ascii.eqb c "}") then Throws "invalid format - must be empty"
      else Returns (begin ctx)
  | EmptyString => Returns (begin ctx)
  end.

(** A source location: the two fields the formatter reads. *)
Record LineInfo : Type := mkLineInfo {
  file_name : string;
  line_number : Z
}.

(** [formatter<LineInfo>::parse], source lines 39 to 42. *)
Definition LineInfo_parse (ctx : format_parse_context) : parse_result :=
  basic_format_parse_impl ctx.

(** How fmt writes an integer for an empty replacement field: its decimal
    digits, after a minus sign when it is negative. *)
Definition decimal (n : Z) : string :=
  DecimalString.NilZero.string_of_int (Z.to_int n).

(** [formatter<LineInfo>::format], source lines 43 to 47: the text goes to
    the end of what the output iterator has written so far. *)
Definition LineInfo_format (li : LineInfo) (out : string) : string :=
  out +:+ file_name li +:+ "(" +:+ decimal (line_number li) +:+ ")".

(** *** The characters of a rendered number *)

Definition chars (s : string) : list ascii := list_ascii_of_string s.

Lemma chars_app (a b : string) : chars (a +:+ b) = chars a ++ chars b.
Proof.
  induction a as [|c a IH]; [reflexivity|].
  change (c :: chars (a +:+ b) = c :: chars a ++ chars b). now rewrite IH.
Qed.

Lemma chars_inj (a b : string) : chars a = chars b -> a = b.
Proof.
  intros H. rewrite <- (string_of_list_ascii_of_string a),
              <- (string_of_list_ascii_of_string b).
  unfold chars in H. now rewrite H.
Qed.

Definition is_digit (c : ascii) : Prop :=
  In c ["0"; "1"; "2"; "3"; "4"; "5"; "6"; "7"; "8"; "9"]%char.

Lemma uint_chars_are_digits (d : Decimal.uint) :
  Forall is_digit (chars (DecimalString.NilEmpty.string_of_uint d)).
Proof.
  induction d; simpl; constructor; try exact IHd;
    unfold is_digit; simpl; tauto.
Qed.

Lemma decimal_has_no_parenthesis (n : Z) : "("%char ∉ chars (decimal n).
Proof.
  assert (Hd : forall d, "("%char ∉ chars (DecimalString.NilZero.string_of_uint d)).
  { intros d Hin.
    assert (Hall : Forall is_digit (chars (DecimalString.NilZero.string_of_uint d))).
    { destruct d;
        first [ apply uint_chars_are_digits
              | apply (uint_chars_are_digits (Decimal.D0 Decimal.Nil)) ]. }
    rewrite Forall_forall in Hall. specialize (Hall _ Hin).
    unfold is_digit in Hall. simpl in Hall.
    repeat (destruct Hall as [Hall|Hall]; [discriminate Hall|]). exact Hall. }
  unfold decimal. destruct (Z.to_int n) as [d|d]; simpl.
  - apply Hd.
  - intros Hin. apply elem_of_cons in Hin as [Hin|Hin]; [discriminate Hin|].
    now apply (Hd d).
Qed.

Lemma decimal_inj (n m : Z) : decimal n = decimal m -> n = m.
Proof.
  unfold decimal. intros H. apply DecimalZ.to_int_inj.
  assert (Hnn : forall z, Z.to_int z <> Decimal.Pos Decimal.Nil
                          /\ Z.to_int z <> Decimal.Neg Decimal.Nil).
  { intros [|p|p]; simpl; split; try discriminate;
      intros [= E]; now apply DecimalPos.Unsigned.to_uint_nonnil in E. }
  destruct (Hnn n) as [N1 N2], (Hnn m) as [M1 M2].
  pose proof (DecimalString.NilZero.isi _ N1 N2) as E1.
  pose proof (DecimalString.NilZero.isi _ M1 M2) as E2.
  rewrite H in E1. congruence.
Qed.

(** Two texts that split at their last parenthesis split alike. *)
Lemma split_at_last {A : Type} (x : A) (a1 a2 b1 b2 : list A) :
  x ∉ b1 -> x ∉ b2 -> a1 ++ x :: b1 = a2 ++ x :: b2 -> a1 = a2 /\ b1 = b2.
Proof.
  intros H1 H2. revert a2.
  induction a1 as [|y a1 IH]; intros [|z a2]; simpl; intros E.
  - injection E as ->. auto.
  - injection E as <- ->. exfalso. apply H1. apply elem_of_app. right. left.
  - injection E as -> <-. exfalso. apply H2. apply elem_of_app. right. left.
  - injection E as -> E. destruct (IH _ E) as [-> ->]. auto.
Qed.

(** X13: [basic_format_parse_impl] accepts the empty range and a range
    that starts at the closing brace, and then returns the begin iterator,
    having consumed nothing; on every other range, that is on every
    non-empty format specification, it throws the format error
    [invalid format - must be empty]. *)
Theorem parse_accepts_only_the_empty_specification (ctx : format_parse_context) :
  (ctx = "" \/ (exists rest, ctx = String "}" rest) ->
   basic_format_parse_impl ctx = Returns ctx) /\
  (forall c rest,
      ctx = String c rest -> c <> "}"%char ->
      basic_format_parse_impl ctx = Throws "invalid format - must be empty") /\
  (forall position,
      basic_format_parse_impl ctx = Returns position ->
      position = ctx /\ (ctx = "" \/ exists rest, ctx = String "}" rest)).
Proof.
  unfold basic_format_parse_impl, begin.
  split; [|split].
  - intros [->|(rest & ->)]; reflexivity.
  - intros c rest -> Hc. apply Ascii.eqb_neq in Hc. now rewrite Hc.
  - intros position. destruct ctx as [|c rest].
    + intros [= <-]. auto.
    + destruct (Ascii.eqb_spec c "}") as [->|Hc]; simpl.
      * intros [= <-]. eauto.
      * intros E. discriminate E.
Qed.

Lemma LineInfo_format_inj (li1 li2 : LineInfo) (out : string) :
  LineInfo_format li1 out = LineInfo_format li2 out -> li1 = li2.
Proof.
  destruct li1 as [f1 n1], li2 as [f2 n2]. unfold LineInfo_format. simpl.
  intros E. apply (inj (String.app out)) in E.
  apply (f_equal chars) in E. rewrite !chars_app in E.
  change (chars "(") with ["("%char] in E. change (chars ")") with [")"%char] in E.
  simpl in E.
  apply split_at_last in E as [Ef Ed].
  - apply app_inv_tail in Ed. apply chars_inj in Ef, Ed.
    apply decimal_inj in Ed. now subst.
  - intros Hin. apply elem_of_app in Hin as [Hin|Hin].
    + now apply (decimal_has_no_parenthesis n1).
    + apply list_elem_of_singleton in Hin. discriminate Hin.
  - intros Hin. apply elem_of_app in Hin as [Hin|Hin].
    + now apply (decimal_has_no_parenthesis n2).
    + apply list_elem_of_singleton in Hin. discriminate Hin.
Qed.

(** X14: the text of a source location is unambiguous: written after the
    same output, two locations that differ in the file name or in the line
    number never give the same text, even when a file name itself holds
    parentheses or digits.  The text keeps what was written before it and
    ends with the closing parenthesis. *)
Theorem LineInfo_format_is_unambiguous (li1 li2 : LineInfo) (out : string) :
  li1 <> li2 ->
  LineInfo_format li1 out <> LineInfo_format li2 out /\
  String.prefix out (LineInfo_format li1 out) = true /\
  exists text, LineInfo_format li1 out = out +:+ text +:+ ")".
Proof.
  intros Hne. split; [|split].
  - intros E. apply Hne. now apply (LineInfo_format_inj li1 li2 out).
  - unfold LineInfo_format. generalize (file_name li1 +:+ "(" +:+ decimal (line_number li1) +:+ ")").
    intros rest. induction out as [|c out IH]; [now destruct rest|].
    change (String.prefix (String c out) (String c (out +:+ rest)) = true).
    simpl. destruct (ascii_dec c c) as [_|N]; [exact IH | now destruct N].
  - exists (file_name li1 +:+ "(" +:+ decimal (line_number li1)).
    unfold LineInfo_format. now rewrite !Strings.app_assoc.
Qed.

End Format.

(** ** A concrete installation *)

(** Build options are a single flag here: the system default is [false],
    and the planner below attaches [true] to every action. *)
Module Demo.

Definition zlib : PackageSpec := mkPackageSpec "zlib" "x64-linux".
Definition curl : PackageSpec := mkPackageSpec "curl" "x64-linux".
Definition fmt : PackageSpec := mkPackageSpec "fmt" "x64-linux".
Definition foo : PackageSpec := mkPackageSpec "foo" "x64-linux".

Definition installed_at (spec : PackageSpec) (version : string) (revision : Z)
  : StatusParagraph :=
  mkStatusParagraph (mkBinaryParagraph spec version revision).

Definition recipe (port version : string) (revision : Z) : SourceControlFileLocation :=
  mkSourceControlFileLocation
    (mkSourceControlFile (mkSourceParagraph port version revision)).

(** zlib is behind its recipe, fmt is ahead of it, curl matches it; foo
    is neither installed nor known to the provider. *)
Definition installed_db : StatusParagraphs :=
  <[zlib := installed_at zlib "1.2.11" 0]>
    (<[curl := installed_at curl "7.88" 1]>
       (<[fmt := installed_at fmt "9.1.0" 0]> ∅)).

Definition ports : PortFileProvider :=
  <["zlib" := recipe "zlib" "1.2.13" 0]>
    (<["curl" := recipe "curl" "7.88" 1]>
       (<["fmt" := recipe "fmt" "8.0.0" 0]> ∅)).

(** A status database in which every package matches its recipe. *)
Definition settled_db : StatusParagraphs := <[curl := installed_at curl "7.88" 1]> ∅.

(** The scan of the status database for packages whose recipe is present
    and differs from the installed version. *)
Definition scan_outdated (provider : PortFileProvider) (db : StatusParagraphs)
  : list OutdatedPackage :=
  omap (fun entry : PackageSpec * StatusParagraph =>
          let installed := mkVersion (bp_version (package entry.2))
                                     (bp_port_version (package entry.2)) in
          match get_control_file provider (name entry.1) with
          | Some control_file =>
              let latest :=
                mkVersion (raw_version (core_paragraph (source_control_file control_file)))
                          (sp_port_version (core_paragraph (source_control_file control_file))) in
              if VersionOps.eqb latest installed then None
              else Some (mkOutdatedPackage entry.1 (installed, latest))
          | None => None
          end)
       (map_to_list db).

Definition plan_rebuild (specs : list PackageSpec) : ActionPlan :=
  mkActionPlan (map mkRemovePlanAction specs)
               (map (fun spec => mkInstallPlanAction spec true) specs)
               ["some ports are not officially supported on this triplet"].

(** An installer run in which every build fails. *)
Definition failing_summary (plan : ActionPlan (BuildPackageOptions := bool))
  : InstallSummary :=
  mkInstallSummary
    (map (fun action => mkSpecSummary (ipa_spec action) BUILD_FAILED)
         (install_actions plan)).

Definition env : Collaborators :=
  mkCollaborators
    (fun command => "Example: vcpkg " +:+ command)
    (fun args _ => Some (mkParsedArguments (list_to_set (command_line_switches args))))
    (fun arg default_triplet _ _ =>
       if decide (arg = "") then None else Some (mkPackageSpec arg default_triplet))
    (fun _ _ => ports)
    scan_outdated
    (fun _ specs _ _ => Some (plan_rebuild specs))
    (fun _ plan _ _ db => Returned (failing_summary plan) db)
    "1.5 s".

Definition paths : VcpkgPaths := mkVcpkgPaths false "/vcpkg/installed" "/vcpkg/ports".

Definition world : World (BuildPackageOptions := bool) := mkWorld installed_db [].
Definition settled_world : World (BuildPackageOptions := bool) := mkWorld settled_db [].

Definition x64_linux : Triplet := "x64-linux".

Definition command_line (specs switches : list string) : VcpkgCmdArguments :=
  mkVcpkgCmdArguments specs [] switches.

Definition session (db : StatusParagraphs) (committed : bool) (specs : list PackageSpec)
  : Session :=
  mkSession committed YES Error db ports specs.

Definition upgrade (specs switches : list string) : Cmd Empty_set :=
  perform_and_exit false env (command_line specs switches) paths x64_linux x64_linux.

(** Whether a printed text holds the given text. *)
Definition mentions (needle text : string) : bool :=
  if String.index 0%nat needle text is Some _ then true else false.

(** Whether some printed message of the trace names the spec. *)
Definition printed (tr : list (Event (BuildPackageOptions := bool)))
           (spec : PackageSpec) : bool :=
  existsb (fun e => match e with
                    | EvPrint _ message => mentions (PackageSpecOps.to_string spec) message
                    | _ => false
                    end) tr.

(** Whether every entry of the bucket is named by some printed message. *)
Definition summarised (bucket : list PackageSpec)
           (tr : list (Event (BuildPackageOptions := bool))) : bool :=
  forallb (printed tr) bucket.

End Demo.

(** ** The properties at work on the concrete installation *)

(** [upgrade zlib foo curl]: foo is unknown, so the run fails after the
    summaries. *)
Lemma classification_termination_policy_witness :
  exists w',
    Demo.upgrade ["zlib"; "foo"; "curl"] [] Demo.world = Exited EXIT_FAILURE w'.
Proof.
  destruct (classification_termination_policy
              false Demo.env (Demo.command_line ["zlib"; "foo"; "curl"] [])
              Demo.paths Demo.x64_linux Demo.x64_linux Demo.world
              (Demo.session Demo.installed_db false [Demo.zlib; Demo.foo; Demo.curl])
              Demo.world)
    as (b & Hb & Hfail & _).
  - vm_compute. reflexivity.
  - simpl. discriminate.
  - eexists. apply Hfail. left.
    vm_compute in Hb. injection Hb as <-. discriminate.
Defined.

(** The same run: zlib is in to_upgrade, foo in not_installed, and no
    printed message names zlib; the to_upgrade bucket has no summary.  On
    [upgrade zlib foo] the up_to_date bucket is empty and has no summary
    either. *)
Lemma four_bucket_summaries_counterexample :
  classifier Demo.installed_db Demo.ports [Demo.zlib; Demo.foo; Demo.curl] Demo.world
  = Continue (mkBuckets [Demo.foo] [Demo.foo] [Demo.zlib] [Demo.curl]) Demo.world
  /\ Demo.upgrade ["zlib"; "foo"; "curl"] [] Demo.world
     = Exited EXIT_FAILURE
         (record Demo.world
            [EvPrint (Some Color_success) up_to_date_header;
             EvPrint None (bucket_listing [Demo.curl]);
             EvPrint (Some Color_error) not_installed_header;
             EvPrint None (bucket_listing [Demo.foo]);
             EvPrint (Some Color_error) no_control_file_header;
             EvPrint None (bucket_listing [Demo.foo])])
  /\ Demo.summarised
       [Demo.zlib]
       [EvPrint (Some Color_success) up_to_date_header;
        EvPrint None (bucket_listing [Demo.curl]);
        EvPrint (Some Color_error) not_installed_header;
        EvPrint None (bucket_listing [Demo.foo]);
        EvPrint (Some Color_error) no_control_file_header;
        EvPrint None (bucket_listing [Demo.foo])] = false
  /\ Demo.summarised
       [Demo.curl; Demo.foo]
       [EvPrint (Some Color_success) up_to_date_header;
        EvPrint None (bucket_listing [Demo.curl]);
        EvPrint (Some Color_error) not_installed_header;
        EvPrint None (bucket_listing [Demo.foo]);
        EvPrint (Some Color_error) no_control_file_header;
        EvPrint None (bucket_listing [Demo.foo])] = true
  /\ Demo.upgrade ["zlib"; "foo"] [] Demo.world
     = Exited EXIT_FAILURE
         (record Demo.world
            [EvPrint (Some Color_error) not_installed_header;
             EvPrint None (bucket_listing [Demo.foo]);
             EvPrint (Some Color_error) no_control_file_header;
             EvPrint None (bucket_listing [Demo.foo])]).
Proof. repeat split; vm_compute; reflexivity. Qed.

(** fmt is installed at 9.1.0 and its recipe went back to 8.0.0: it is
    to be upgraded all the same. *)
Lemma classifier_compares_versions_by_equality_witness :
  exists b,
    classifier Demo.installed_db Demo.ports [Demo.fmt; Demo.curl] Demo.world
    = Continue b Demo.world
    /\ Demo.fmt ∈ to_upgrade b.
Proof.
  destruct (classifier_compares_versions_by_equality
              Demo.installed_db Demo.ports [Demo.fmt; Demo.curl] Demo.fmt
              (Demo.installed_at Demo.fmt "9.1.0" 0) (Demo.recipe "fmt" "8.0.0" 0)
              Demo.world)
    as (b & Hb & _ & _ & _ & Hne).
  - apply list_elem_of_here.
  - vm_compute. reflexivity.
  - vm_compute. reflexivity.
  - exists b. split; [exact Hb|]. apply Hne. simpl. discriminate.
Defined.

(** [upgrade zlib] without [--no-dry-run]: the plan and the advisory are
    printed, the run fails, the status database is as before. *)
Lemma dry_run_gate_witness :
  exists w',
    Demo.upgrade ["zlib"] [] Demo.world = Exited EXIT_FAILURE w'
    /\ status_db w' = Demo.installed_db.
Proof.
  destruct (dry_run_gate
              false Demo.env (Demo.command_line ["zlib"] [])
              Demo.paths Demo.x64_linux Demo.x64_linux Demo.world
              (Demo.session Demo.installed_db false [Demo.zlib]) Demo.world
              (mkParsedArguments ∅)
              (Demo.plan_rebuild [Demo.zlib])
              (record Demo.world
                      [EvCreateUpgradePlan
                         [Demo.zlib]
                         (mkCreateInstallPlanOptions Demo.x64_linux Error)]))
    as (w' & evs & Hrun & _ & Hdb & _).
  - vm_compute. reflexivity.
  - vm_compute. reflexivity.
  - simpl. apply not_elem_of_empty.
  - vm_compute. reflexivity.
  - reflexivity.
  - exists w'. split; [exact Hrun | exact Hdb].
Defined.

(** [upgrade foo]: foo is reported under both error headers. *)
Lemma missing_and_recipeless_in_both_buckets_witness :
  exists w',
    Demo.upgrade ["foo"] [] Demo.world = Exited EXIT_FAILURE w'
    /\ diagnosed not_installed_header Demo.foo (trace w')
    /\ diagnosed no_control_file_header Demo.foo (trace w').
Proof.
  destruct (missing_and_recipeless_in_both_buckets
              false Demo.env (Demo.command_line ["foo"] [])
              Demo.paths Demo.x64_linux Demo.x64_linux Demo.world
              (Demo.session Demo.installed_db false [Demo.foo]) Demo.world Demo.foo)
    as (b & w' & _ & _ & _ & Hrun & H1 & H2).
  - vm_compute. reflexivity.
  - apply list_elem_of_here.
  - vm_compute. reflexivity.
  - vm_compute. reflexivity.
  - exists w'. split; [exact Hrun|]. split; [exact H1 | exact H2].
Defined.

(** [zlib], [fmt] and [curl] given in two orders, neither of them sorted:
    both runs give the same buckets, with [fmt] before [zlib] in to_upgrade. *)
Lemma buckets_sorted_whatever_the_input_order_witness :
  exists b,
    classifier Demo.installed_db Demo.ports [Demo.zlib; Demo.fmt; Demo.curl] Demo.world
    = Continue b Demo.world
    /\ classifier Demo.installed_db Demo.ports [Demo.fmt; Demo.curl; Demo.zlib] Demo.world
       = Continue b Demo.world
    /\ to_upgrade b = [Demo.fmt; Demo.zlib]
    /\ up_to_date b = [Demo.curl].
Proof.
  destruct (buckets_sorted_whatever_the_input_order
              Demo.installed_db Demo.ports
              [Demo.zlib; Demo.fmt; Demo.curl] [Demo.fmt; Demo.curl; Demo.zlib]
              Demo.world Demo.world)
    as (b & H1 & H2 & _).
  - etrans; [apply perm_swap|]. apply perm_skip. apply perm_swap.
  - exists b. split; [exact H1|]. split; [exact H2|].
    rewrite classifier_run in H1. injection H1 as <-.
    split; vm_compute; reflexivity.
Defined.

(** [upgrade] with nothing outdated. *)
Lemma nothing_outdated_exits_success_witness :
  Demo.upgrade [] [] Demo.settled_world
  = Exited EXIT_SUCCESS
           (record Demo.settled_world
                   [EvFindOutdatedPackages; EvPrint None all_up_to_date_message]).
Proof.
  apply (nothing_outdated_exits_success
           false Demo.env (Demo.command_line [] [])
           Demo.paths Demo.x64_linux Demo.x64_linux Demo.settled_world
           (Demo.session Demo.settled_db false []) Demo.settled_world).
  - vm_compute. reflexivity.
  - reflexivity.
  - vm_compute. reflexivity.
Defined.

(** [upgrade --no-dry-run zlib] with an installer whose builds all fail:
    the summary is printed and the run succeeds. *)
Lemma committed_run_reports_and_succeeds_witness :
  exists w',
    Demo.upgrade ["zlib"] ["no-dry-run"] Demo.world = Exited EXIT_SUCCESS w'
    /\ EvSummaryPrint (mkInstallSummary [mkSpecSummary Demo.zlib BUILD_FAILED])
       ∈ trace w'.
Proof.
  pose proof (committed_run_reports_and_succeeds
                false Demo.env (Demo.command_line ["zlib"] ["no-dry-run"])
                Demo.paths Demo.x64_linux Demo.x64_linux Demo.world
                (Demo.session Demo.installed_db true [Demo.zlib]) Demo.world
                (Demo.plan_rebuild [Demo.zlib])
                (record Demo.world
                        [EvCreateUpgradePlan
                           [Demo.zlib]
                           (mkCreateInstallPlanOptions Demo.x64_linux Error)])
                (mkInstallSummary [mkSpecSummary Demo.zlib BUILD_FAILED])
                Demo.installed_db) as H.
  destruct H as (Hrun & _).
  - vm_compute. reflexivity.
  - vm_compute. reflexivity.
  - reflexivity.
  - reflexivity.
  - vm_compute. reflexivity.
  - eexists. split; [exact Hrun|]. simpl.
    rewrite !elem_of_cons. tauto.
Defined.

(** [upgrade foo foo]: both occurrences land in both error buckets, four
    entries for two inputs; the buckets do not partition the input. *)
Lemma buckets_partition_counterexample :
  classifier Demo.installed_db Demo.ports [Demo.foo; Demo.foo] Demo.world
  = Continue (mkBuckets [Demo.foo; Demo.foo] [Demo.foo; Demo.foo] [] []) Demo.world
  /\ ~ ([Demo.foo; Demo.foo]
        ≡ₚ [Demo.foo; Demo.foo] ++ [Demo.foo; Demo.foo] ++ [] ++ []).
Proof.
  split; [vm_compute; reflexivity|].
  intros H. apply Permutation_length in H. discriminate H.
Qed.

(** ** Further runs on the concrete installation *)

Module Variants.

(** A project in manifest mode. *)
Definition manifest_paths : VcpkgPaths :=
  mkVcpkgPaths true "/project/vcpkg_installed" "/vcpkg/ports".

(** The environment of [Demo] with another planner. *)
Definition env_with_planner
           (planner : list PackageSpec -> option (ActionPlan (BuildPackageOptions := bool)))
  : Collaborators :=
  mkCollaborators
    (create_example_string Demo.env)
    (parse_arguments Demo.env)
    (check_and_get_package_spec Demo.env)
    (PathsPortFileProvider Demo.env)
    (find_outdated_packages Demo.env)
    (fun _ specs _ _ => planner specs)
    (install_perform Demo.env)
    (timer_to_string Demo.env).

(** A planner that answers with a plan without actions. *)
Definition idle_env : Collaborators :=
  env_with_planner (fun _ => Some (mkActionPlan [] [] ["nothing to rebuild"])).

Definition zlib_arm64 : PackageSpec := mkPackageSpec "zlib" "arm64-linux".

Definition planner_options (action : UnsupportedPortAction) : CreateInstallPlanOptions :=
  mkCreateInstallPlanOptions Demo.x64_linux action.

(** The plan the installer gets for [zlib]: default build options. *)
Definition zlib_plan : ActionPlan (BuildPackageOptions := bool) :=
  mkActionPlan [mkRemovePlanAction Demo.zlib]
               [mkInstallPlanAction Demo.zlib false]
               ["some ports are not officially supported on this triplet"].

Definition committed_zlib_events : list (Event (BuildPackageOptions := bool)) :=
  [EvCreateUpgradePlan [Demo.zlib] (planner_options Error);
   EvPrint (Some Color_warning)
           ("some ports are not officially supported on this triplet" +:+ newline);
   EvPrintPlan zlib_plan true "/vcpkg/ports";
   EvLoadTagVars zlib_plan Demo.x64_linux;
   EvInstallPerform zlib_plan YES;
   EvPrint None (elapsed_time_message Demo.env);
   EvSummaryPrint (mkInstallSummary [mkSpecSummary Demo.zlib BUILD_FAILED])].

End Variants.

(** [upgrade zlib] inside a manifest project. *)
Lemma manifest_mode_is_rejected_witness :
  exists evs,
    perform_and_exit false Demo.env (Demo.command_line ["zlib"] ["no-dry-run"])
                     Variants.manifest_paths Demo.x64_linux Demo.x64_linux Demo.world
    = Exited EXIT_FAILURE (record Demo.world evs).
Proof.
  destruct (manifest_mode_is_rejected
              false Demo.env (Demo.command_line ["zlib"] ["no-dry-run"])
              Variants.manifest_paths Demo.x64_linux Demo.x64_linux Demo.world)
    as (evs & Hrun & _).
  - reflexivity.
  - exists evs. exact Hrun.
Defined.

(** Both keep-going switches and a spec argument that is not valid: the
    conflict is what the run reports. *)
Lemma keep_going_conflict_stops_the_run_witness :
  Demo.upgrade [""] ["keep-going"; "no-keep-going"; "no-dry-run"] Demo.world
  = Exited EXIT_FAILURE
           (record Demo.world
                   [EvPrintMessage (Some Color_error)
                                   (msgBothYesAndNoOptionSpecifiedError "keep-going")]).
Proof.
  apply (keep_going_conflict_stops_the_run
           false Demo.env
           (Demo.command_line [""] ["keep-going"; "no-keep-going"; "no-dry-run"])
           Demo.paths Demo.x64_linux Demo.x64_linux Demo.world
           (mkParsedArguments (list_to_set ["keep-going"; "no-keep-going"; "no-dry-run"]))).
  - reflexivity.
  - reflexivity.
  - apply (bool_decide_unpack _). vm_compute. exact I.
  - apply (bool_decide_unpack _). vm_compute. exact I.
Defined.

(** [upgrade --no-dry-run zlib] with a planner that returns no action. *)
Lemma empty_plan_is_fatal_witness :
  perform_and_exit false Variants.idle_env (Demo.command_line ["zlib"] ["no-dry-run"])
                   Demo.paths Demo.x64_linux Demo.x64_linux Demo.world
  = Exited EXIT_FAILURE
           (record Demo.world
                   [EvCreateUpgradePlan [Demo.zlib] (Variants.planner_options Error)]).
Proof.
  apply (empty_plan_is_fatal
           false Variants.idle_env (Demo.command_line ["zlib"] ["no-dry-run"])
           Demo.paths Demo.x64_linux Demo.x64_linux Demo.world
           (Demo.session Demo.installed_db true [Demo.zlib]) Demo.world
           (mkActionPlan [] [] ["nothing to rebuild"])).
  - vm_compute. reflexivity.
  - vm_compute. reflexivity.
  - reflexivity.
Defined.

(** [upgrade zlib fmt]: no switch at all, so nothing is executed. *)
Lemma nothing_is_executed_without_no_dry_run_witness :
  exists code w',
    Demo.upgrade ["zlib"; "fmt"] ["keep-going"] Demo.world = Exited code w'
    /\ status_db w' = Demo.installed_db.
Proof.
  destruct (nothing_is_executed_without_no_dry_run
              false Demo.env (Demo.command_line ["zlib"; "fmt"] ["keep-going"])
              Demo.paths Demo.x64_linux Demo.x64_linux Demo.world)
    as (code & w' & evs & Hrun & Hdb & _).
  - intros options [= <-]. simpl.
    apply (bool_decide_unpack _). vm_compute. exact I.
  - exists code, w'. split; [exact Hrun | exact Hdb].
Defined.

(** [upgrade zlib curl fmt] with a planner that aborts: the planner was
    called, with [fmt] and [zlib] in this order, and the run ends there. *)
Lemma planner_is_given_the_outdated_specs_witness :
  exists b,
    classifier Demo.installed_db Demo.ports [Demo.zlib; Demo.curl; Demo.fmt] Demo.world
    = Continue b Demo.world
    /\ to_upgrade b = [Demo.fmt; Demo.zlib]
    /\ Sorted PackageSpecOps.le (to_upgrade b)
    /\ [Demo.zlib; Demo.curl; Demo.fmt] ≡ₚ to_upgrade b ++ up_to_date b.
Proof.
  destruct (planner_is_given_the_outdated_specs
              false (Variants.env_with_planner (fun _ => None))
              (Demo.command_line ["zlib"; "curl"; "fmt"] [])
              Demo.paths Demo.x64_linux Demo.x64_linux Demo.world
              (Demo.session Demo.installed_db false [Demo.zlib; Demo.curl; Demo.fmt])
              Demo.world
              EXIT_FAILURE
              (record Demo.world
                      [EvPrint (Some Color_success) up_to_date_header;
                       EvPrint None (bucket_listing [Demo.curl]);
                       EvCreateUpgradePlan [Demo.fmt; Demo.zlib]
                                           (Variants.planner_options Error)])
              [EvPrint (Some Color_success) up_to_date_header;
               EvPrint None (bucket_listing [Demo.curl]);
               EvCreateUpgradePlan [Demo.fmt; Demo.zlib]
                                   (Variants.planner_options Error)]
              [Demo.fmt; Demo.zlib] (Variants.planner_options Error))
    as (b & rest & Hb & _ & _ & _ & Hsorted & Hperm & Hspecs & _).
  - vm_compute. reflexivity.
  - simpl. discriminate.
  - vm_compute. reflexivity.
  - reflexivity.
  - do 2 apply list_elem_of_further. apply list_elem_of_here.
  - exists b. split; [exact Hb|]. split; [symmetry; exact Hspecs|].
    split; [exact Hsorted | exact Hperm].
Defined.

(** [upgrade] with zlib and fmt outdated: the planner gets the scan. *)
Lemma sweep_plans_for_the_scanned_packages_witness :
  Demo.scan_outdated Demo.ports Demo.installed_db <> [].
Proof.
  apply (sweep_plans_for_the_scanned_packages
           Demo.env (Demo.command_line [] [])
           Demo.paths Demo.x64_linux Demo.x64_linux Demo.world
           (Demo.session Demo.installed_db false []) Demo.world
           (Demo.plan_rebuild
              (map op_spec (Demo.scan_outdated Demo.ports Demo.installed_db)))
           (record Demo.world
                   [EvFindOutdatedPackages;
                    EvCreateUpgradePlan
                      (map op_spec (Demo.scan_outdated Demo.ports Demo.installed_db))
                      (Variants.planner_options Error)])).
  - vm_compute. reflexivity.
  - reflexivity.
  - vm_compute. reflexivity.
Defined.

(** [upgrade curl]: curl is up to date, the run succeeds, nothing else. *)
Lemma success_means_nothing_to_do_or_upgrade_done_witness :
  exists s,
    startup Demo.env (Demo.command_line ["curl"] []) Demo.paths Demo.x64_linux Demo.world
    = Continue s Demo.world.
Proof.
  destruct (success_means_nothing_to_do_or_upgrade_done
              false Demo.env (Demo.command_line ["curl"] [])
              Demo.paths Demo.x64_linux Demo.x64_linux Demo.world
              (record Demo.world
                      [EvPrint (Some Color_success) up_to_date_header;
                       EvPrint None (bucket_listing [Demo.curl])]))
    as (s & Hs & _).
  - vm_compute. reflexivity.
  - exists s. exact Hs.
Defined.

(** [upgrade --no-dry-run zlib]: the installer gets the plan that was
    printed just before. *)
Lemma installer_runs_the_presented_plan_witness :
  exists before after,
    Variants.committed_zlib_events
    = before
      ++ [EvPrintPlan Variants.zlib_plan true "/vcpkg/ports";
          EvLoadTagVars Variants.zlib_plan Demo.x64_linux;
          EvInstallPerform Variants.zlib_plan YES]
      ++ after.
Proof.
  destruct (installer_runs_the_presented_plan
              false Demo.env (Demo.command_line ["zlib"] ["no-dry-run"])
              Demo.paths Demo.x64_linux Demo.x64_linux Demo.world
              EXIT_SUCCESS (mkWorld Demo.installed_db Variants.committed_zlib_events)
              Variants.committed_zlib_events Variants.zlib_plan YES)
    as (before & after & Hevs & _).
  - vm_compute. reflexivity.
  - reflexivity.
  - unfold Variants.committed_zlib_events. rewrite !elem_of_cons. tauto.
  - exists before, after. exact Hevs.
Defined.

(** [upgrade --allow-unsupported zlib]: the planner is told to warn. *)
Lemma planner_sees_the_parsed_context_witness :
  exists specs0,
    create_upgrade_plan Demo.env Demo.ports specs0 Demo.installed_db
                        (Variants.planner_options Warn)
    = Some (Demo.plan_rebuild [Demo.zlib]).
Proof.
  destruct (planner_sees_the_parsed_context
              Demo.env (Demo.command_line ["zlib"] ["allow-unsupported"])
              Demo.paths Demo.x64_linux Demo.x64_linux Demo.world
              (mkSession false YES Warn Demo.installed_db Demo.ports [Demo.zlib])
              Demo.world
              (mkParsedArguments (list_to_set ["allow-unsupported"]))
              (Demo.plan_rebuild [Demo.zlib])
              (record Demo.world
                      [EvCreateUpgradePlan [Demo.zlib] (Variants.planner_options Warn)]))
    as (specs0 & evs & Hplan & _).
  - vm_compute. reflexivity.
  - reflexivity.
  - vm_compute. reflexivity.
  - exists specs0. exact Hplan.
Defined.

(** zlib for two triplets: one recipe lookup decides for both, the
    installed lookups differ. *)
Lemma recipe_lookup_ignores_the_triplet_witness :
  exists b,
    classifier Demo.installed_db Demo.ports [Demo.zlib; Variants.zlib_arm64] Demo.world
    = Continue b Demo.world
    /\ (Demo.zlib ∈ no_control_file b <-> Variants.zlib_arm64 ∈ no_control_file b).
Proof.
  destruct (recipe_lookup_ignores_the_triplet
              Demo.installed_db Demo.ports [Demo.zlib; Variants.zlib_arm64]
              Demo.zlib Variants.zlib_arm64 Demo.world)
    as (b & Hb & Hiff & _).
  - apply list_elem_of_here.
  - apply list_elem_of_further, list_elem_of_here.
  - reflexivity.
  - exists b. split; [exact Hb | exact Hiff].
Defined.

(** A file name that ends like a rendered location. *)
Lemma LineInfo_format_is_unambiguous_witness :
  Format.LineInfo_format (Format.mkLineInfo "src/a.cpp(1" 2) "at "
  <> Format.LineInfo_format (Format.mkLineInfo "src/a.cpp" 12) "at ".
Proof.
  apply (Format.LineInfo_format_is_unambiguous
           (Format.mkLineInfo "src/a.cpp(1" 2) (Format.mkLineInfo "src/a.cpp" 12) "at ").
  discriminate.
Defined.
